(** * map_plotter: slippy-map projection, tile cache and supertile assembly

    A shallow embedding of [osm_helpers.py] and [osm_plotter.py].

    - Python [int] is [Z]; [range(a, b)] is [py_range a b].
    - Python [float] is modelled by the real numbers [R]: the arithmetic of
      the projection functions is the exact one, rounding is not modelled.
    - The file system, the HTTP requests issued so far and the standard
      output form the [world], which is passed explicitly.
    - The tile server and the lookup server are an oracle [server]: its
      answer may depend on the request and on how many requests were made
      before.  The PNG codec ([plt.imread], [plt.imsave]) and the JSON parser
      ([json.loads]) are parameters of the development. *)

From Stdlib Require Import Reals Lra Lia ZArith QArith Ascii.
From stdpp Require Import gmap strings list pretty.

Local Open Scope Z_scope.

(** ** Python values shared by both modules *)

Inductive py_error :=
  | KeyError (key : string)
  | IndexError
  | TypeError
  | ValueError
  | RequestException (msg : string)
  | JSONDecodeError
  | DecodeError.

Inductive result (A : Type) :=
  | Ok (a : A)
  | Raise (e : py_error).
Arguments Ok {A} a.
Arguments Raise {A} e.

(** [range(lo, hi)] *)
Definition py_range (lo hi : Z) : list Z := seqZ lo (hi - lo).

(** [sep.join(l)] *)
Fixpoint join (sep : string) (l : list string) : string :=
  match l with
  | [] => ""
  | [s] => s
  | s :: l' => s +:+ sep +:+ join sep l'
  end.

(** [str(n)] for an [int] *)
Definition str (n : Z) : string := pretty n.

(** Whether a character occurs in a string; the characters of [str n] are
    digits and the sign. *)
Fixpoint contains (c : ascii) (s : string) : bool :=
  match s with
  | EmptyString => false
  | String a s' => bool_decide (a = c) || contains c s'
  end.

Definition not_digit (c : ascii) : Prop := ∀ d, pretty_N_char d ≠ c.

(** ** The world: files, directories, requests issued, standard output *)

Record request := Get {
  req_url : string;
  req_params : list (string * string)
}.

Inductive http_outcome :=
  | ConnectionFailed (msg : string)          (* requests.get raises *)
  | Response (ok : bool) (content : string). (* resp.ok, resp.content *)

Record world := World {
  files : gmap string string;
  dirs : gset string;
  requests : list request;
  stdout : list string
}.

Definition print (line : string) (w : world) : world :=
  World (files w) (dirs w) (requests w) (stdout w ++ [line]).

Definition write_file (path content : string) (w : world) : world :=
  World (<[path := content]> (files w)) (dirs w) (requests w) (stdout w).

Definition mkdir (path : string) (w : world) : world :=
  World (files w) ({[path]} ∪ dirs w) (requests w) (stdout w).

Definition exists_file (path : string) (w : world) : bool :=
  bool_decide (is_Some (files w !! path)).

(** ** Images: what [plt.imread] returns and [np.zeros]/[np.ones] build *)

Record image := Image {
  height : Z;
  width : Z;
  channels : option Z; (* [None]: a two-dimensional (greyscale) array *)
  pixel : Z → Z → Z → Q
}.

Definition np_zeros (h w c : Z) : image := Image h w (Some c) (λ _ _ _, 0%Q).
Definition np_ones (h w c : Z) : image := Image h w (Some c) (λ _ _ _, 1%Q).

(** ** osm_helpers.py *)

Definition MAX_TILE_COUNT : Z := 500.
Definition OSM_TILE_SIZE : Z := 256.

Definition default_url : string := "http://a.tile.openstreetmap.org".

Definition tile_url_of (url : string) (zoom x y : Z) : string :=
  join "/" [url; str zoom; str x; str y +:+ ".png"].

(** [Path('tiles').joinpath(name)] *)
Definition joinpath (dir name : string) : string := dir +:+ "/" +:+ name.

Definition tile_file_of (tile_path : string) (zoom x y : Z) : string :=
  joinpath tile_path (join "_" ["tile"; str zoom; str x; str y +:+ ".png"]).

(** The pixels of the block of tile [(x, y)] in the supertile. *)
Definition in_block (x_min y_min : Z) (q : Z * Z) (r k : Z) : Prop :=
  (q.2 - y_min) * 256 ≤ r < (q.2 - y_min) * 256 + 256
  ∧ (q.1 - x_min) * 256 ≤ k < (q.1 - x_min) * 256 + 256.

(** A tile as the tile server delivers it: 256 x 256 pixels with at least
    the three colour channels. *)
Definition well_formed_tile (img : image) : Prop :=
  height img = 256 ∧ width img = 256 ∧ ∃ c, channels img = Some c ∧ 3 ≤ c.

Section Model.

Variable server : nat → request → http_outcome.
Variable imsave : image → string.
Variable imread : string → option image.

Definition requests_get (r : request) (w : world) : http_outcome * world :=
  (server (length (requests w)) r,
   World (files w) (dirs w) (requests w ++ [r]) (stdout w)).

(** [download_tile_file] returns [True], [False] or, when the response is
    not ok, falls off its end and returns [None]. *)
Definition download_tile_file (tile_url tile_file : string) (verbose : bool)
    (w : world) : option bool * world :=
  match requests_get (Get tile_url []) w with
  | (ConnectionFailed e, w1) =>
      (Some false, if verbose then print e w1 else w1)
  | (Response ok content, w1) =>
      if ok then
        let w2 := if verbose then print ("Downloading " +:+ tile_url) w1 else w1 in
        (Some true, write_file tile_file content w2)
      else (None, w1)
  end.

(** Truthiness of the value returned by [download_tile_file]. *)
Definition truthy (r : option bool) : bool :=
  match r with Some b => b | None => false end.

(** The body of the inner loop of [download_tiles_for_area]. *)
Definition download_one (url : string) (zoom x y : Z) (w : world) : world :=
  let tile_url := tile_url_of url zoom x y in
  let tile_file := tile_file_of "tiles" zoom x y in
  if negb (exists_file tile_file w) then
    let '(r, w1) := download_tile_file tile_url tile_file false w in
    if negb (truthy r) then
      write_file tile_file (imsave (np_ones OSM_TILE_SIZE OSM_TILE_SIZE 3)) w1
    else w1
  else w.

Definition download_column (url : string) (zoom y_tile_min y_tile_max x : Z)
    (w : world) : world :=
  foldl (λ w y, download_one url zoom x y w) w (py_range y_tile_min (y_tile_max + 1)).

Definition download_tiles_for_area (x_tile_min x_tile_max y_tile_min y_tile_max
    zoom : Z) (url : string) (w : world) : world :=
  let tile_count := (x_tile_max - x_tile_min + 1) * (y_tile_max - y_tile_min + 1) in
  if bool_decide (tile_count > MAX_TILE_COUNT) then
    print "ERROR zoom value too high" w
  else
    let w1 := mkdir "tiles" w in
    foldl (λ w x, download_column url zoom y_tile_min y_tile_max x w) w1
          (py_range x_tile_min (x_tile_max + 1)).

(** The blank tile written when a fetch fails, and what the cache holds for
    a tile fetched by the request number [k]. *)
Definition placeholder : string :=
  imsave (np_ones OSM_TILE_SIZE OSM_TILE_SIZE 3).

Definition fetched (k : nat) (tile_url : string) : string :=
  match server k (Get tile_url []) with
  | Response true content => content
  | _ => placeholder
  end.

(** The tile indices of a range, in the order the loops visit them. *)
Definition tiles_of_range (x_tile_min x_tile_max y_tile_min y_tile_max : Z)
    : list (Z * Z) :=
  py_range x_tile_min (x_tile_max + 1) ≫= λ x,
    (λ y, (x, y)) <$> py_range y_tile_min (y_tile_max + 1).

(** The requests issued between two worlds. *)
Definition new_requests (w w' : world) : list request :=
  drop (length (requests w)) (requests w').

(** ** osm_plotter.py: the grid assembler *)

(** [f'tile_{zoom}_{x}_{y}.png'] *)
Definition tile_name (zoom x y : Z) : string :=
  "tile_" +:+ str zoom +:+ "_" +:+ str x +:+ "_" +:+ str y +:+ ".png".

(** Length of the slice [a:b] of an axis of length [n], for [0 <= a <= b]
    (the only slices the loop of [combine_supertile] takes). *)
Definition slice_len (n a b : Z) : Z := Z.max 0 (Z.min b n - Z.min a n).

(** NumPy broadcasting of one axis of the assigned value to the target. *)
Definition broadcastable (src tgt : Z) : bool :=
  bool_decide (src = tgt) || bool_decide (src = 1).

(** [supertile[r0:r0+n, c0:c0+n, :] = tile_img[:, :, :3]] *)
Definition assign_block (supertile : image) (r0 c0 n : Z) (tile_img : image)
    : result image :=
  match channels tile_img, channels supertile with
  | None, _ => Raise IndexError
  | _, None => Raise IndexError
  | Some c, Some d =>
      let sc := Z.max 0 (Z.min c 3) in
      let th := slice_len (height supertile) r0 (r0 + n) in
      let tw := slice_len (width supertile) c0 (c0 + n) in
      if broadcastable (Z.max 0 (height tile_img)) th
         && broadcastable (Z.max 0 (width tile_img)) tw
         && broadcastable sc d
      then
        Ok (Image (height supertile) (width supertile) (Some d)
              (λ r k ch,
                 if bool_decide (r0 ≤ r < r0 + th ∧ c0 ≤ k < c0 + tw ∧ 0 ≤ ch < d)
                 then pixel tile_img
                        (if bool_decide (height tile_img = 1) then 0 else r - r0)
                        (if bool_decide (width tile_img = 1) then 0 else k - c0)
                        (if bool_decide (sc = 1) then 0 else ch)
                 else pixel supertile r k ch))
      else Raise ValueError
  end.

(** A [for] loop whose body may raise. *)
Fixpoint for_each {A S : Type} (l : list A) (body : A → S → result S) (s : S)
    : result S :=
  match l with
  | [] => Ok s
  | a :: l' =>
      match body a s with
      | Ok s' => for_each l' body s'
      | Raise e => Raise e
      end
  end.

(** The body of the inner loop of [combine_supertile]. *)
Definition combine_one (w : world) (tile_path : string)
    (x_tile_min y_tile_min zoom x y : Z) (supertile : image) : result image :=
  let tile := joinpath tile_path (tile_name zoom x y) in
  let i := y - y_tile_min in
  let j := x - x_tile_min in
  match files w !! tile with
  | Some content =>
      match imread content with
      | Some tile_img =>
          assign_block supertile (i * OSM_TILE_SIZE) (j * OSM_TILE_SIZE)
                       OSM_TILE_SIZE tile_img
      | None => Raise DecodeError
      end
  | None => Ok supertile
  end.

Definition combine_supertile (x_tile_min x_tile_max y_tile_min y_tile_max
    zoom : Z) (tile_path : string) (w : world) : result image :=
  let rows := (y_tile_max - y_tile_min + 1) * OSM_TILE_SIZE in
  let cols := (x_tile_max - x_tile_min + 1) * OSM_TILE_SIZE in
  if bool_decide (rows < 0 ∨ cols < 0) then Raise ValueError
  else
    for_each (py_range x_tile_min (x_tile_max + 1))
      (λ x, for_each (py_range y_tile_min (y_tile_max + 1))
              (combine_one w tile_path x_tile_min y_tile_min zoom x))
      (np_zeros rows cols 3).

(** What the block of a tile holds once the tile has been visited. *)
Definition tile_pixel (w : world) (tile_path : string) (zoom : Z) (q : Z * Z)
    (background : Q) (r k ch : Z) : Q :=
  match files w !! joinpath tile_path (tile_name zoom q.1 q.2) with
  | Some content =>
      match imread content with
      | Some tile_img => pixel tile_img r k ch
      | None => background
      end
  | None => background
  end.

End Model.

(** ** osm_plotter.py: the feature lookup client *)

#[warnings="-register-all"]
Inductive json :=
  | JNull
  | JBool (b : bool)
  | JNum (r : R)
  | JStr (s : string)
  | JArr (l : list json)
  | JObj (kv : list (string * json)).

Definition NOMINATIM_SERVER : string := "https://nominatim.openstreetmap.org".

(** [len(v)] *)
Definition py_len (v : json) : result nat :=
  match v with
  | JArr l => Ok (length l)
  | JObj kv => Ok (length kv)
  | JStr s => Ok (String.length s)
  | _ => Raise TypeError
  end.

(** [kv[key]] on the items of a dict *)
Fixpoint assoc (key : string) (kv : list (string * json)) : option json :=
  match kv with
  | [] => None
  | (k, v) :: kv' => if bool_decide (k = key) then Some v else assoc key kv'
  end.

(** [v[i]] for an index [i] *)
Definition py_item (i : nat) (v : json) : result json :=
  match v with
  | JArr l => match l !! i with Some x => Ok x | None => Raise IndexError end
  | JStr s =>
      match String.get i s with
      | Some c => Ok (JStr (String c EmptyString))
      | None => Raise IndexError
      end
  | JObj _ => Raise (KeyError (str (Z.of_nat i)))
  | _ => Raise TypeError
  end.

(** [v[key]] for a string [key] *)
Definition py_getitem (key : string) (v : json) : result json :=
  match v with
  | JObj kv => match assoc key kv with Some x => Ok x | None => Raise (KeyError key) end
  | _ => Raise TypeError
  end.

(** [l += v] for a list [l] *)
Definition py_extend (l : list json) (v : json) : result (list json) :=
  match v with
  | JArr l' => Ok (l ++ l')
  | JObj kv => Ok (l ++ ((λ p, JStr p.1) <$> kv))
  | JStr s => Ok (l ++ ((λ c, JStr (String c EmptyString)) <$> String.list_ascii_of_string s))
  | _ => Raise TypeError
  end.

(** The dict [{'type': '', 'geojson': {}}] *)
Definition empty_geometry : gmap string json :=
  <["type" := JStr ""]> (<["geojson" := JObj []]> ∅).

Record map_data := MapData {
  ways : gmap Z (gmap string json);
  nodes : gmap Z (gmap string json);
  way_coords : list json;
  node_coords : list json
}.

(** The request [lookup_geojson_by_id] sends. *)
Definition lookup_request (element_type : string) (osm_id : Z) : request :=
  Get (NOMINATIM_SERVER +:+ "lookup.php")
      [("osm_ids", element_type +:+ str osm_id);
       ("format", "jsonv2"); ("polygon_geojson", "1")].

(** The dict returned for a first element with both keys. *)
Definition geometry (type geojson : json) : gmap string json :=
  <["geojson" := geojson]> (<["type" := type]> empty_geometry).

(** A computation that reads and writes the world and may raise. *)
Definition io (A : Type) : Type := world → result A * world.

Definition ret {A} (a : A) : io A := λ w, (Ok a, w).
Definition raise {A} (e : py_error) : io A := λ w, (Raise e, w).
Definition bind {A B} (m : io A) (f : A → io B) : io B :=
  λ w, match m w with
       | (Ok a, w') => f a w'
       | (Raise e, w') => (Raise e, w')
       end.
Definition lift {A} (r : result A) : io A := λ w, (r, w).

Notation "x <- m ;; k" := (bind m (λ x, k))
  (at level 100, m at next level, right associativity).

Section Lookup.

Variable server : nat → request → http_outcome.
Variable json_loads : string → option json.

Definition lookup_geojson_by_id (osm_id : Z) (element_type : string)
    : io (gmap string json) :=
  let det := empty_geometry in
  let url := NOMINATIM_SERVER +:+ "lookup.php" in
  let payload := [("osm_ids", element_type +:+ str osm_id);
                  ("format", "jsonv2"); ("polygon_geojson", "1")] in
  λ w,
    match requests_get server (Get url payload) w with
    | (ConnectionFailed e, w1) => (Raise (RequestException e), w1)
    | (Response ok content, w1) =>
        if ok then
          match json_loads content with
          | None => (Raise JSONDecodeError, w1)
          | Some cont =>
              (n <- lift (py_len cont) ;;
               if bool_decide (0 < n)%nat then
                 det1 <- (if bool_decide (is_Some (det !! "type")) then
                           first <- lift (py_item 0 cont) ;;
                           t <- lift (py_getitem "type" first) ;;
                           ret (<["type" := t]> det)
                         else ret det) ;;
                 det2 <- (if bool_decide (is_Some (det1 !! "geojson")) then
                           first <- lift (py_item 0 cont) ;;
                           g <- lift (py_getitem "geojson" first) ;;
                           ret (<["geojson" := g]> det1)
                         else ret det1) ;;
                 ret det2
               else ret det) w1
          end
        else (Ok det, w1)
    end.

(** The body of either loop of [download_map_data_nominatim]: look the
    element up and append its coordinates to the list collected so far. *)
Definition lookup_into (element_type : string) (id : Z)
    (acc : gmap Z (gmap string json) * list json)
    : io (gmap Z (gmap string json) * list json) :=
  d <- lookup_geojson_by_id id element_type ;;
  let found := <[id := d]> acc.1 in
  match d !! "geojson" with
  | Some g =>
      c <- lift (py_getitem "coordinates" g) ;;
      l <- lift (py_extend acc.2 c) ;;
      ret (found, l)
  | None => ret (found, acc.2)
  end.

Fixpoint lookup_all (element_type : string) (ids : list Z)
    (acc : gmap Z (gmap string json) * list json)
    : io (gmap Z (gmap string json) * list json) :=
  match ids with
  | [] => ret acc
  | id :: ids' =>
      acc' <- lookup_into element_type id acc ;;
      lookup_all element_type ids' acc'
  end.

(** [way_ids] and [node_ids] default to [None]; [if way_ids:] skips both
    [None] and the empty list. *)
Definition download_map_data_nominatim (way_ids node_ids : option (list Z))
    : io map_data :=
  wr <- lookup_all "W" (default [] way_ids) (∅, []) ;;
  nr <- lookup_all "N" (default [] node_ids) (∅, []) ;;
  ret (MapData wr.1 nr.1 wr.2 nr.2).

(** The coordinates the request [req] finds when it is request number [k]:
    defined when the lookup resolves to a geometry with a list of
    coordinates. *)
Definition found_coordinates (k : nat) (req : request) : option (list json) :=
  match server k req with
  | Response true content =>
      match json_loads content with
      | Some (JArr (JObj kv :: _)) =>
          match assoc "type" kv, assoc "geojson" kv with
          | Some _, Some (JObj g) =>
              match assoc "coordinates" g with
              | Some (JArr coordinates) => Some coordinates
              | _ => None
              end
          | _, _ => None
          end
      | _ => None
      end
  | _ => None
  end.

(** The coordinates found for the elements [ids], looked up one after the
    other from request number [k] on. *)
Fixpoint all_found (k : nat) (element_type : string) (ids : list Z)
    : option (list (list json)) :=
  match ids with
  | [] => Some []
  | id :: ids' =>
      match found_coordinates k (lookup_request element_type id),
            all_found (S k) element_type ids' with
      | Some c, Some cs => Some (c :: cs)
      | _, _ => None
      end
  end.

End Lookup.

(** ** osm_helpers.py: the projection module *)

Section Projection.
Local Open Scope R_scope.

Definition np_ceil (x : R) : R := IZR (- Int_part (- x)).
Definition np_log2 (x : R) : R := ln x / ln 2.
Definition np_radians (deg : R) : R := deg * PI / 180.
Definition np_degrees (rad : R) : R := rad * 180 / PI.

(** [int(x)] for a float: truncation towards zero. *)
Definition py_int (x : R) : Z :=
  if Rle_dec 0 x then Int_part x else (- Int_part (- x))%Z.

Definition calculate_zoom_level (min_lon max_lon min_lat max_lat : R) : Z :=
  let z_lon := np_ceil (np_log2 (360 / (max_lat - min_lat))) in
  let z_lat := np_ceil (np_log2 (1701023 / 10000 / (max_lon - min_lon))) in
  let zoom_level := Rmin z_lon z_lat + 1 in
  let zoom_level := Rmin zoom_level 18 in
  let zoom_level := Rmax zoom_level 0 in
  py_int zoom_level.

Definition deg2xy (lat_deg lon_deg : R) (zoom : Z) : R * R :=
  let lat_rad := np_radians lat_deg in
  let n := powerRZ 2 zoom in
  let x := (lon_deg + 180) / 360 * n in
  let y := (1 - ln (tan lat_rad + 1 / cos lat_rad) / PI) / 2 * n in
  (x, y).

Definition deg2tile_coord (lat_deg lon_deg : R) (zoom : Z) : Z * Z :=
  let '(x, y) := deg2xy lat_deg lon_deg zoom in
  (py_int x, py_int y).

Definition num2deg (x_tile y_tile zoom : Z) : R * R :=
  let n := powerRZ 2 zoom in
  let lon_deg := IZR x_tile / n * 360 - 180 in
  let lat_rad := atan (sinh (PI * (1 - 2 * IZR y_tile / n))) in
  let lat_deg := np_degrees lat_rad in
  (lat_deg, lon_deg).

Definition sc2deg (sc_value : R) : R := sc_value * 180 / 2 ^ 31.

(** [ceil(log2(x))] as an integer *)
Definition ceil_log2 (x : R) : Z := (- Int_part (- np_log2 x))%Z.

(** The estimate as the specification words it: the smaller of the two
    ceilings of base-two logarithms, plus one, clamped into [0, 18]. *)
Definition zoom_level_formula (min_lon max_lon min_lat max_lat : R) : Z :=
  let z_lon := ceil_log2 (360 / (max_lat - min_lat)) in
  let z_lat := ceil_log2 (1701023 / 10000 / (max_lon - min_lon)) in
  Z.max 0 (Z.min 18 (Z.min z_lon z_lat + 1)).

(** The latitude [num2deg] computes, at a real ordinate. *)
Definition lat_of_y (y : R) (zoom : Z) : R :=
  np_degrees (atan (sinh (PI * (1 - 2 * y / powerRZ 2 zoom)))).

(** The northern limit of the projection, about 85.0511 degrees: the
    latitude of the upper edge of tile row 0. *)
Definition max_latitude : R := np_degrees (atan (sinh PI)).

End Projection.

(** ** osm_plotter.py: the main pipeline *)

(** The input manifest, as [json.load] returns it. *)
Record draw_data := DrawData {
  draw_ways : list Z;
  draw_nodes : list Z
}.

(** A number inside a NumPy array built from JSON values. *)
Definition as_float (v : json) : result R :=
  match v with
  | JNum r => Ok r
  | JBool b => Ok (if b then 1%R else 0%R)
  | _ => Raise TypeError
  end.

(** [[c[i] for c in coords]], as floats *)
Fixpoint column (i : nat) (coords : list json) : result (list R) :=
  match coords with
  | [] => Ok []
  | c :: coords' =>
      match py_item i c with
      | Ok v =>
          match as_float v, column i coords' with
          | Ok r, Ok l => Ok (r :: l)
          | Raise e, _ => Raise e
          | _, Raise e => Raise e
          end
      | Raise e => Raise e
      end
  end.

(** [np.min] and [np.max] of a list; both raise on the empty list. *)
Fixpoint np_min (l : list R) : result R :=
  match l with
  | [] => Raise ValueError
  | [a] => Ok a
  | a :: l' => match np_min l' with Ok m => Ok (Rmin a m) | Raise e => Raise e end
  end.

Fixpoint np_max (l : list R) : result R :=
  match l with
  | [] => Raise ValueError
  | [a] => Ok a
  | a :: l' => match np_max l' with Ok m => Ok (Rmax a m) | Raise e => Raise e end
  end.

Definition np_min_column (i : nat) (coords : list json) : result R :=
  match column i coords with Ok l => np_min l | Raise e => Raise e end.

Definition np_max_column (i : nat) (coords : list json) : result R :=
  match column i coords with Ok l => np_max l | Raise e => Raise e end.


(** The local variables of [main] that fix the extent of the map. *)
Record extent := Extent {
  data : map_data;
  min_lon : R;
  max_lon : R;
  min_lat : R;
  max_lat : R;
  zoom_level : Z;
  x_tile_min : Z;
  x_tile_max : Z;
  y_tile_min : Z;
  y_tile_max : Z
}.

Section Main.

Variable server : nat → request → http_outcome.
Variable imsave : image → string.
Variable imread : string → option image.
Variable json_loads : string → option json.

(** Lines 112 to 120 of [main]: the features are looked up, their bounding
    box, the zoom level and the tile range are computed. *)
Definition main_extent (draw : draw_data) : io extent :=
  map_data <- download_map_data_nominatim server json_loads
                (Some (draw_ways draw)) (Some (draw_nodes draw)) ;;
  min_lon <- lift (np_min_column 0 (way_coords map_data)) ;;
  max_lon <- lift (np_max_column 0 (way_coords map_data)) ;;
  min_lat <- lift (np_min_column 1 (way_coords map_data)) ;;
  max_lat <- lift (np_max_column 1 (way_coords map_data)) ;;
  (* zoom_level = osm_helpers.calculate_zoom_level(min_lon, max_lon, min_lat, max_lat) *)
  let zoom_level := 17 in
  let '(x_tile_min, y_tile_max) := deg2tile_coord min_lat min_lon zoom_level in
  let '(x_tile_max, y_tile_min) := deg2tile_coord max_lat max_lon zoom_level in
  ret (Extent map_data min_lon max_lon min_lat max_lat zoom_level
         x_tile_min x_tile_max y_tile_min y_tile_max).

(** [main], from the loaded manifest to the supertile (lines 104 to 123);
    the drawing of the figure that follows is not part of the model. *)
Definition main (draw : draw_data) : io (extent * image) :=
  λ w0,
    (e <- main_extent draw ;;
     λ w,
       let w' := download_tiles_for_area server imsave
                   (x_tile_min e) (x_tile_max e) (y_tile_min e) (y_tile_max e)
                   (zoom_level e) default_url w in
       match combine_supertile imread
               (x_tile_min e) (x_tile_max e) (y_tile_min e) (y_tile_max e)
               (zoom_level e) "tiles" w' with
       | Ok supertile => (Ok (e, supertile), w')
       | Raise err => (Raise err, w')
       end) (mkdir "figs" w0).

End Main.



(** ** Servers and codecs used in the examples *)

Definition empty_world : world := World ∅ ∅ [] [].

(** No connection at all. *)
Definition offline_server : nat → request → http_outcome :=
  λ _ _, ConnectionFailed "offline".

(** Every request is answered, but not with success. *)
Definition refusing_server : nat → request → http_outcome :=
  λ _ _, Response false "".

(** Every request is answered with success. *)
Definition answering_server : nat → request → http_outcome :=
  λ _ _, Response true "body".

(** A parser that finds one motorway with the given coordinates. *)
Definition loads_way (coordinates : list json) : string → option json :=
  λ _, Some (JArr [JObj [("type", JStr "motorway");
                          ("geojson", JObj [("type", JStr "LineString");
                                            ("coordinates", JArr coordinates)])]]).

Definition origin_way : list json := [JArr [JNum 0; JNum 0]].

Definition berlin_way : list json :=
  [JArr [JNum (133 / 10); JNum (525 / 10)]; JArr [JNum (135 / 10); JNum (526 / 10)]].

(** A parser that rejects every body. *)
Definition loads_nothing : string → option json := λ _, None.

Definition imsave_blank : image → string := λ _, "blank".

Definition imread_white : string → option image :=
  λ _, Some (np_ones 256 256 4).

(** * Properties *)

(** ** File names and URLs determine the tile *)

Lemma contains_app c s1 s2 :
  contains c (s1 +:+ s2) = contains c s1 || contains c s2.
Proof.
  induction s1 as [|a s1 IH]; simpl; [done|].
  by rewrite IH, orb_assoc.
Qed.

(** Two strings cut at the first occurrence of a separator agree on both
    sides of it. *)
Lemma split_at_sep c s1 s2 t1 t2 :
  contains c s1 = false → contains c s2 = false →
  s1 +:+ String c t1 = s2 +:+ String c t2 → s1 = s2 ∧ t1 = t2.
Proof.
  revert s2. induction s1 as [|a s1 IH]; intros [|b s2]; simpl; intros H1 H2 Heq.
  - by simplify_eq.
  - simplify_eq. rewrite bool_decide_eq_true_2 in H2 by done. done.
  - simplify_eq. rewrite bool_decide_eq_true_2 in H1 by done. done.
  - apply orb_false_elim in H1 as [_ H1]. apply orb_false_elim in H2 as [_ H2].
    injection Heq as -> Heq. destruct (IH _ H1 H2 Heq) as [-> ->]. done.
Qed.

Lemma pretty_N_go_contains c x s :
  not_digit c → contains c s = false → contains c (pretty_N_go x s) = false.
Proof.
  intros Hc. revert s. induction (N.lt_wf_0 x) as [x _ IH]; intros s Hs.
  assert (x = 0 ∨ 0 < x)%N as [->|Hx] by lia.
  - by rewrite pretty_N_go_0.
  - rewrite pretty_N_go_step by done. apply IH.
    + by apply N.div_lt.
    + simpl. rewrite Hs, orb_false_r. apply bool_decide_eq_false_2, Hc.
Qed.

Lemma str_contains c n :
  not_digit c → c ≠ "-"%char → contains c (str n) = false.
Proof.
  intros Hc Hm.
  assert (∀ p : positive, contains c (pretty p) = false) as Hpos.
  { intros p. unfold pretty, pretty_positive, pretty, pretty_N.
    case_decide; [done|]. by apply pretty_N_go_contains. }
  destruct n as [|p|p].
  - change (contains c (String "0" "") = false). simpl.
    rewrite orb_false_r. apply bool_decide_eq_false_2.
    intros <-. by apply (Hc 0%N).
  - apply Hpos.
  - change (contains c (String "-" (pretty p)) = false).
    cbn [contains]. rewrite Hpos, orb_false_r.
    apply bool_decide_eq_false_2. congruence.
Qed.

Lemma slash_not_digit : not_digit "/".
Proof. intros d. unfold pretty_N_char. by repeat case_match. Qed.

Lemma underscore_not_digit : not_digit "_".
Proof. intros d. unfold pretty_N_char. by repeat case_match. Qed.

Lemma dot_not_digit : not_digit ".".
Proof. intros d. unfold pretty_N_char. by repeat case_match. Qed.

Lemma str_inj n m : str n = str m → n = m.
Proof. apply pretty_Z_inj. Qed.

Lemma str_png_inj n m : str n +:+ ".png" = str m +:+ ".png" → n = m.
Proof.
  intros H. apply str_inj.
  by destruct (split_at_sep "." (str n) (str m) "png" "png") as [? _];
    [apply str_contains; [apply dot_not_digit|done]..| | ].
Qed.

Lemma tile_url_of_inj url zoom x y x' y' :
  tile_url_of url zoom x y = tile_url_of url zoom x' y' → x = x' ∧ y = y'.
Proof.
  unfold tile_url_of; simpl. intros H.
  do 4 apply String.app_inj in H.
  apply (split_at_sep "/") in H as [Hx Hy];
    [|by apply str_contains; [apply slash_not_digit|]..].
  split; [by apply str_inj | by apply str_png_inj].
Qed.

Lemma tile_file_of_inj dir zoom x y x' y' :
  tile_file_of dir zoom x y = tile_file_of dir zoom x' y' → x = x' ∧ y = y'.
Proof.
  unfold tile_file_of, joinpath; simpl. intros H.
  do 6 apply String.app_inj in H.
  apply (split_at_sep "_") in H as [Hx Hy];
    [|by apply str_contains; [apply underscore_not_digit|]..].
  split; [by apply str_inj | by apply str_png_inj].
Qed.

(** The downloader and the assembler name the cached tile alike. *)
Lemma tile_file_of_name dir zoom x y :
  tile_file_of dir zoom x y = joinpath dir (tile_name zoom x y).
Proof. reflexivity. Qed.

Example tile_file_of_example :
  tile_file_of "tiles" 17 70406 42987 = "tiles/tile_17_70406_42987.png".
Proof. reflexivity. Qed.

Example tile_url_of_example :
  tile_url_of default_url 17 70406 42987
  = "http://a.tile.openstreetmap.org/17/70406/42987.png".
Proof. reflexivity. Qed.

(** ** The tile fetcher *)

Section Fetcher.

Variable server : nat → request → http_outcome.
Variable imsave : image → string.

Lemma exists_file_true path w :
  exists_file path w = true ↔ is_Some (files w !! path).
Proof. unfold exists_file. by rewrite bool_decide_eq_true. Qed.

Lemma exists_file_false path w :
  exists_file path w = false ↔ files w !! path = None.
Proof.
  unfold exists_file. rewrite bool_decide_eq_false, eq_None_not_Some. done.
Qed.

(** A tile already in the cache is left alone. *)
Lemma download_one_hit url zoom x y w :
  is_Some (files w !! tile_file_of "tiles" zoom x y) →
  download_one server imsave url zoom x y w = w.
Proof.
  intros H. unfold download_one.
  by rewrite (proj2 (exists_file_true _ _) H).
Qed.

(** A tile missing from the cache costs one request, and a file is written
    whatever the answer is. *)
Lemma download_one_miss url zoom x y w :
  files w !! tile_file_of "tiles" zoom x y = None →
  download_one server imsave url zoom x y w
  = World (<[tile_file_of "tiles" zoom x y :=
               fetched server imsave (length (requests w)) (tile_url_of url zoom x y)]> (files w))
          (dirs w)
          (requests w ++ [Get (tile_url_of url zoom x y) []])
          (stdout w).
Proof.
  intros H. unfold download_one.
  rewrite (proj2 (exists_file_false _ _) H). simpl.
  unfold download_tile_file, requests_get, fetched, placeholder.
  destruct (server _ _) as [e|[] content]; simpl; unfold write_file; simpl; done.
Qed.

Lemma foldl_nested {A B S} (f : A → B → S → S) (xs : list A) (ys : list B) (s : S) :
  foldl (λ s x, foldl (λ s y, f x y s) s ys) s xs
  = foldl (λ s p, f p.1 p.2 s) s (xs ≫= λ x, (λ y, (x, y)) <$> ys).
Proof.
  revert s. induction xs as [|x xs IH]; intros s; simpl; [done|].
  rewrite foldl_app, <-IH. f_equal.
  clear IH. revert s. induction ys as [|y ys IHy]; intros s; simpl; [done|].
  apply IHy.
Qed.

Lemma elem_of_py_range (i lo hi : Z) : i ∈ py_range lo hi ↔ lo ≤ i < hi.
Proof. unfold py_range. rewrite elem_of_seqZ. lia. Qed.

Lemma elem_of_tiles_of_range x y x_min x_max y_min y_max :
  (x, y) ∈ tiles_of_range x_min x_max y_min y_max
  ↔ x_min ≤ x ≤ x_max ∧ y_min ≤ y ≤ y_max.
Proof.
  unfold tiles_of_range. rewrite list_elem_of_bind. split.
  - intros (x' & Hy & Hx). apply list_elem_of_fmap in Hy as (y' & [= -> ->] & Hy).
    apply elem_of_py_range in Hx, Hy. lia.
  - intros [Hx Hy]. exists x. split.
    + apply list_elem_of_fmap. exists y. split; [done|].
      apply elem_of_py_range. lia.
    + apply elem_of_py_range. lia.
Qed.

(** What a run of the download loop over the tiles [l] does to the world:
    it only appends requests, one for each tile that was missing, never
    twice the same; it keeps every file that was there; it leaves a file
    for each tile that was missing; and it touches nothing else. *)
Lemma download_loop_spec url zoom (l : list (Z * Z)) (w : world) :
  let path q := tile_file_of "tiles" zoom q.1 q.2 in
  let req q := Get (tile_url_of url zoom q.1 q.2) [] in
  let w' := foldl (λ w q, download_one server imsave url zoom q.1 q.2 w) w l in
  ∃ L, requests w' = requests w ++ L
    ∧ NoDup L
    ∧ (∀ r, r ∈ L → ∃ q, q ∈ l ∧ r = req q ∧ files w !! path q = None)
    ∧ (∀ p c, files w !! p = Some c → files w' !! p = Some c)
    ∧ (∀ q, q ∈ l → files w !! path q = None →
         ∃ k, (length (requests w) ≤ k)%nat ∧ requests w' !! k = Some (req q)
              ∧ files w' !! path q
                = Some (fetched server imsave k (tile_url_of url zoom q.1 q.2)))
    ∧ (∀ p, (∀ q, q ∈ l → p ≠ path q) → files w' !! p = files w !! p)
    ∧ dirs w' = dirs w ∧ stdout w' = stdout w.
Proof.
  intros path req. revert w.
  induction l as [|q0 l IH]; intros w; simpl.
  { exists []. rewrite app_nil_r. split_and!; try done.
    - constructor.
    - intros r Hr. by apply elem_of_nil in Hr.
    - intros q Hq. by apply elem_of_nil in Hq. }
  destruct (files w !! path q0) as [c0|] eqn:Hq0.
  - (* cache hit *)
    rewrite download_one_hit by (unfold path in Hq0; by rewrite Hq0).
    destruct (IH w) as (L & HL & Hnd & Hreq & Hmono & Hnew & Hframe & Hd & Hs).
    exists L. split_and!; try done.
    + intros r Hr. destruct (Hreq r Hr) as (q & Hq & -> & Hnone).
      exists q. split_and!; [by right|done..].
    + intros q Hq Hnone. apply elem_of_cons in Hq as [->|Hq]; [congruence|].
      by apply Hnew.
    + intros p Hp. apply Hframe. intros q Hq. apply Hp. by right.
  - (* cache miss *)
    rewrite download_one_miss by done.
    set (w1 := World _ _ _ _).
    destruct (IH w1) as (L & HL & Hnd & Hreq & Hmono & Hnew & Hframe & Hd & Hs).
    assert (∀ q, path q ≠ path q0 → files w1 !! path q = files w !! path q) as Hne.
    { intros q Hq. unfold w1; simpl. by rewrite lookup_insert_ne. }
    assert (∀ q, files w1 !! path q = None → files w !! path q = None) as Hback.
    { intros q Hq. destruct (decide (path q = path q0)) as [Heq|Hneq].
      - rewrite Heq in Hq. unfold w1 in Hq; simpl in Hq.
        by rewrite lookup_insert_eq in Hq.
      - by rewrite <-Hne. }
    exists (req q0 :: L). split_and!.
    + rewrite HL. unfold w1; simpl. by rewrite <-app_assoc.
    + constructor; [|done]. intros Hin.
      destruct (Hreq _ Hin) as (q & Hq & Heq & Hnone).
      injection Heq as Heq. apply tile_url_of_inj in Heq as [Hx Hy].
      assert (path q = path q0) as Hp by (unfold path; congruence).
      rewrite Hp in Hnone. unfold w1 in Hnone; simpl in Hnone.
      by rewrite lookup_insert_eq in Hnone.
    + intros r Hr. apply elem_of_cons in Hr as [->|Hr].
      * exists q0. split_and!; [by left|done..].
      * destruct (Hreq r Hr) as (q & Hq & -> & Hnone).
        exists q. split_and!; [by right|done|by apply Hback].
    + intros p c Hp. apply Hmono. unfold w1; simpl.
      rewrite lookup_insert_ne; [done|]. intros <-. unfold path in Hq0. congruence.
    + intros q Hq Hnone. destruct (decide (path q = path q0)) as [Heq|Hneq].
      * assert (q = q0) as ->.
        { apply tile_file_of_inj in Heq as [??]. destruct q, q0; simpl in *; congruence. }
        exists (length (requests w)). split_and!; [done| |].
        -- rewrite HL. unfold w1; simpl.
           rewrite <-app_assoc, lookup_app_r by done.
           by rewrite Nat.sub_diag.
        -- apply Hmono. unfold w1; simpl. by rewrite lookup_insert_eq.
      * apply elem_of_cons in Hq as [->|Hq]; [done|].
        destruct (Hnew q Hq) as (k & Hk & Hrk & Hfk); [by rewrite Hne|].
        exists k. split_and!; [|done..].
        unfold w1 in Hk; simpl in Hk. rewrite length_app in Hk. simpl in Hk. lia.
    + intros p Hp. rewrite Hframe.
      * unfold w1; simpl. rewrite lookup_insert_ne; [done|].
        intros <-. by apply (Hp q0); [left|].
      * intros q Hq. apply Hp. by right.
    + by rewrite Hd.
    + by rewrite Hs.
Qed.

Lemma download_tiles_for_area_loop x_min x_max y_min y_max zoom url w :
  (x_max - x_min + 1) * (y_max - y_min + 1) ≤ MAX_TILE_COUNT →
  download_tiles_for_area server imsave x_min x_max y_min y_max zoom url w
  = foldl (λ w q, download_one server imsave url zoom q.1 q.2 w) (mkdir "tiles" w)
          (tiles_of_range x_min x_max y_min y_max).
Proof.
  intros Hcount. unfold download_tiles_for_area, download_column, tiles_of_range.
  rewrite bool_decide_eq_false_2 by lia.
  apply (foldl_nested (λ x y w, download_one server imsave url zoom x y w)).
Qed.

(** The requests of a call are appended to those made before it. *)
Lemma download_tiles_for_area_requests x_min x_max y_min y_max zoom url w :
  let w' := download_tiles_for_area server imsave x_min x_max y_min y_max zoom url w in
  requests w' = requests w ++ new_requests w w'.
Proof.
  intros w'. unfold new_requests.
  assert (∃ L, requests w' = requests w ++ L) as [L HL].
  { destruct (decide ((x_max - x_min + 1) * (y_max - y_min + 1) ≤ MAX_TILE_COUNT)).
    - unfold w'. rewrite download_tiles_for_area_loop by done.
      destruct (download_loop_spec url zoom (tiles_of_range x_min x_max y_min y_max)
                  (mkdir "tiles" w)) as (L & HL & _). by exists L.
    - exists []. unfold w', download_tiles_for_area.
      rewrite bool_decide_eq_true_2 by lia. simpl. by rewrite app_nil_r. }
  by rewrite HL, drop_app_length.
Qed.

(** C4. A tile range of more than 500 tiles (501, say) is rejected: the
    call prints a diagnostic message and returns; it issues no request and
    writes no file, the cache directory is not even created. *)
Theorem download_tiles_for_area_rejects x_min x_max y_min y_max zoom url w :
  (x_max - x_min + 1) * (y_max - y_min + 1) > 500 →
  let w' := download_tiles_for_area server imsave x_min x_max y_min y_max zoom url w in
  stdout w' = stdout w ++ ["ERROR zoom value too high"]
  ∧ requests w' = requests w
  ∧ files w' = files w
  ∧ dirs w' = dirs w.
Proof.
  intros Hcount w'. unfold w', download_tiles_for_area.
  rewrite bool_decide_eq_true_2 by (unfold MAX_TILE_COUNT; lia).
  done.
Qed.

(** C5. After a call on a range of at most 500 tiles, the file
    [tiles/tile_{zoom}_{x}_{y}.png] exists for every tile of the range.  It
    either was in the cache before and is unchanged, or it was fetched by
    one request of this call; when that request failed (no connection, or a
    response that is not ok) the file is the all-ones 256 x 256 x 3 tile. *)
Theorem download_tiles_for_area_fills_cache x_min x_max y_min y_max zoom url w x y :
  (x_max - x_min + 1) * (y_max - y_min + 1) ≤ 500 →
  x_min ≤ x ≤ x_max → y_min ≤ y ≤ y_max →
  let w' := download_tiles_for_area server imsave x_min x_max y_min y_max zoom url w in
  let tile := joinpath "tiles" (tile_name zoom x y) in
  let req := Get (tile_url_of url zoom x y) [] in
  ∃ content, files w' !! tile = Some content
    ∧ (files w !! tile = Some content
       ∨ files w !! tile = None
         ∧ ∃ k, (length (requests w) ≤ k)%nat
              ∧ requests w' !! k = Some req
              ∧ match server k req with
                | Response true body => content = body
                | _ => content = imsave (np_ones 256 256 3)
                end).
Proof.
  intros Hcount Hx Hy w' tile req.
  unfold w'. rewrite download_tiles_for_area_loop by done.
  destruct (download_loop_spec url zoom (tiles_of_range x_min x_max y_min y_max)
              (mkdir "tiles" w)) as (L & HL & Hnd & Hreq & Hmono & Hnew & _).
  simpl in *.
  assert ((x, y) ∈ tiles_of_range x_min x_max y_min y_max) as Hin
    by by apply elem_of_tiles_of_range.
  destruct (files w !! tile) as [c|] eqn:Hc.
  - exists c. split; [|by left]. by apply Hmono.
  - destruct (Hnew (x, y) Hin Hc) as (k & Hk & Hrk & Hfk). simpl in *.
    eexists. split; [exact Hfk|]. right. split; [done|].
    exists k. split_and!; [done..|].
    unfold fetched, placeholder, req. by destruct (server _ _) as [|[]].
Qed.

(** C6. The cache makes fetching idempotent.  A tile whose file exists
    before a call keeps its file and is not requested by the call; no tile
    is requested twice by one call; and a second call for the same range
    issues no request at all and leaves every file as it is. *)
Theorem download_tiles_for_area_idempotent x_min x_max y_min y_max zoom url w :
  let w1 := download_tiles_for_area server imsave x_min x_max y_min y_max zoom url w in
  let w2 := download_tiles_for_area server imsave x_min x_max y_min y_max zoom url w1 in
  (∀ x y content,
     files w !! joinpath "tiles" (tile_name zoom x y) = Some content →
     files w1 !! joinpath "tiles" (tile_name zoom x y) = Some content
     ∧ Get (tile_url_of url zoom x y) [] ∉ new_requests w w1)
  ∧ NoDup (new_requests w w1)
  ∧ new_requests w1 w2 = []
  ∧ files w2 = files w1.
Proof.
  intros w1 w2.
  destruct (decide ((x_max - x_min + 1) * (y_max - y_min + 1) ≤ MAX_TILE_COUNT))
    as [Hcount|Hcount].
  - unfold w2, new_requests. unfold w1.
    rewrite !download_tiles_for_area_loop by done.
    set (l := tiles_of_range x_min x_max y_min y_max).
    destruct (download_loop_spec url zoom l (mkdir "tiles" w))
      as (L & HL & Hnd & Hreq & Hmono & Hnew & _).
    set (v1 := foldl _ (mkdir "tiles" w) l) in *.
    destruct (download_loop_spec url zoom l (mkdir "tiles" v1))
      as (L2 & HL2 & _ & Hreq2 & Hmono2 & _ & Hframe2 & _).
    set (v2 := foldl _ (mkdir "tiles" v1) l) in *.
    simpl in *.
    (* after the first call every tile of the range has a file *)
    assert (∀ q, q ∈ l → is_Some (files v1 !! tile_file_of "tiles" zoom q.1 q.2)) as Hall.
    { intros q Hq.
      destruct (files w !! tile_file_of "tiles" zoom q.1 q.2) as [c|] eqn:Hc.
      - eexists. by apply Hmono.
      - destruct (Hnew q Hq Hc) as (k & _ & _ & Hf). by eexists. }
    assert (L2 = []) as ->.
    { destruct L2 as [|r L2]; [done|].
      destruct (Hreq2 r) as (q & Hq & _ & Hnone); [by left|].
      destruct (Hall q Hq) as [c Hc]. congruence. }
    rewrite HL2, app_nil_r, HL, drop_app_length, drop_all.
    split_and!; [|done|done|].
    + intros x y content Hc. split; [by apply Hmono|].
      intros Hin. destruct (Hreq _ Hin) as (q & Hq & Heq & Hnone).
      injection Heq as Heq. apply tile_url_of_inj in Heq as [-> ->].
      rewrite tile_file_of_name in Hnone. congruence.
    + apply map_eq. intros p.
      destruct (files v1 !! p) as [c|] eqn:Hp; [by apply Hmono2|].
      rewrite Hframe2; [done|]. intros q Hq ->.
      destruct (Hall q Hq) as [c Hc]. congruence.
  - unfold w2, w1, new_requests, download_tiles_for_area.
    rewrite !bool_decide_eq_true_2 by lia. simpl.
    rewrite !drop_all. split_and!; [|constructor|done..].
    intros x y content Hc. split; [done|]. apply not_elem_of_nil.
Qed.

End Fetcher.

(** ** The grid assembler *)

Section Assembler.

Variable imread : string → option image.

Lemma for_each_app {A S} (l1 l2 : list A) (body : A → S → result S) (s : S) :
  for_each (l1 ++ l2) body s
  = match for_each l1 body s with
    | Ok s' => for_each l2 body s'
    | Raise e => Raise e
    end.
Proof.
  revert s. induction l1 as [|a l1 IH]; intros s; simpl; [done|].
  destruct (body a s); [apply IH|done].
Qed.

Lemma for_each_nested {A B S} (f : A → B → S → result S) xs ys (s : S) :
  for_each xs (λ x, for_each ys (f x)) s
  = for_each (xs ≫= λ x, (λ y, (x, y)) <$> ys) (λ p, f p.1 p.2) s.
Proof.
  revert s. induction xs as [|x xs IH]; intros s; simpl; [done|].
  rewrite for_each_app.
  assert (∀ s, for_each ys (f x) s
               = for_each ((λ y, (x, y)) <$> ys) (λ p, f p.1 p.2) s) as <-.
  { clear. induction ys as [|y ys IHy]; intros s; simpl; [done|].
    destruct (f x y s); [apply IHy|done]. }
  destruct (for_each ys (f x) s); [apply IH|done].
Qed.

Lemma in_block_inj x_min y_min q q' r k :
  in_block x_min y_min q r k → in_block x_min y_min q' r k → q = q'.
Proof.
  unfold in_block. destruct q as [x y], q' as [x' y']; simpl.
  intros [??] [??]. f_equal; lia.
Qed.

Lemma assign_block_well_formed (s : image) (i j : Z) (tile_img : image) :
  channels s = Some 3 →
  0 ≤ i → (i + 1) * 256 ≤ height s →
  0 ≤ j → (j + 1) * 256 ≤ width s →
  well_formed_tile tile_img →
  ∃ s', assign_block s (i * OSM_TILE_SIZE) (j * OSM_TILE_SIZE) OSM_TILE_SIZE tile_img
        = Ok s'
    ∧ height s' = height s ∧ width s' = width s ∧ channels s' = Some 3
    ∧ ∀ r k ch,
        pixel s' r k ch
        = if bool_decide (i * 256 ≤ r < i * 256 + 256
                          ∧ j * 256 ≤ k < j * 256 + 256 ∧ 0 ≤ ch < 3)
          then pixel tile_img (r - i * 256) (k - j * 256) ch
          else pixel s r k ch.
Proof.
  intros Hch Hi Hh Hj Hw (Hth & Htw & c & Hc & Hc3).
  unfold assign_block, OSM_TILE_SIZE. rewrite Hc, Hch, Hth, Htw.
  assert (slice_len (height s) (i * 256) (i * 256 + 256) = 256) as ->
    by (unfold slice_len; lia).
  assert (slice_len (width s) (j * 256) (j * 256 + 256) = 256) as ->
    by (unfold slice_len; lia).
  assert (Z.max 0 (Z.min c 3) = 3) as -> by lia.
  simpl. eexists. split; [done|]. simpl. done.
Qed.

Lemma combine_one_spec w tile_path x_min y_min zoom x y (s : image) :
  channels s = Some 3 →
  0 ≤ y - y_min → (y - y_min + 1) * 256 ≤ height s →
  0 ≤ x - x_min → (x - x_min + 1) * 256 ≤ width s →
  (∀ content, files w !! joinpath tile_path (tile_name zoom x y) = Some content →
     ∃ tile_img, imread content = Some tile_img ∧ well_formed_tile tile_img) →
  ∃ s', combine_one imread w tile_path x_min y_min zoom x y s = Ok s'
    ∧ height s' = height s ∧ width s' = width s ∧ channels s' = Some 3
    ∧ ∀ r k ch,
        pixel s' r k ch
        = if bool_decide (in_block x_min y_min (x, y) r k ∧ 0 ≤ ch < 3)
          then tile_pixel imread w tile_path zoom (x, y) (pixel s r k ch)
                 (r - (y - y_min) * 256) (k - (x - x_min) * 256) ch
          else pixel s r k ch.
Proof.
  intros Hch Hi Hh Hj Hw Hwf. unfold combine_one, tile_pixel; simpl.
  destruct (files w !! _) as [content|] eqn:Hf.
  - destruct (Hwf content eq_refl) as (tile_img & -> & Himg).
    destruct (assign_block_well_formed s (y - y_min) (x - x_min) tile_img)
      as (s' & -> & ? & ? & ? & Hpix); try done.
    exists s'. split_and!; try done.
    intros r k ch. rewrite Hpix. unfold in_block; simpl.
    do 2 case_bool_decide; try done; exfalso; tauto.
  - exists s. split_and!; try done. intros r k ch. by case_bool_decide.
Qed.

Lemma tile_pixel_idemp w tile_path zoom q b r k ch r' k' ch' :
  tile_pixel imread w tile_path zoom q (tile_pixel imread w tile_path zoom q b r' k' ch') r k ch
  = tile_pixel imread w tile_path zoom q b r k ch.
Proof.
  unfold tile_pixel. destruct (files w !! _); [|done].
  by destruct (imread _).
Qed.

(** The loop of [combine_supertile] over the tiles [l], started from the
    raster [s]: it succeeds when every cached tile is well formed, keeps the
    shape, leaves the pixels outside the blocks of [l] alone and fills the
    block of each tile of [l]. *)
Lemma combine_loop_spec w tile_path x_min y_min zoom (l : list (Z * Z)) (s : image) :
  channels s = Some 3 →
  (∀ q, q ∈ l →
     0 ≤ q.2 - y_min ∧ (q.2 - y_min + 1) * 256 ≤ height s
     ∧ 0 ≤ q.1 - x_min ∧ (q.1 - x_min + 1) * 256 ≤ width s) →
  (∀ q content, q ∈ l →
     files w !! joinpath tile_path (tile_name zoom q.1 q.2) = Some content →
     ∃ tile_img, imread content = Some tile_img ∧ well_formed_tile tile_img) →
  ∃ s', for_each l (λ q, combine_one imread w tile_path x_min y_min zoom q.1 q.2) s
        = Ok s'
    ∧ height s' = height s ∧ width s' = width s ∧ channels s' = Some 3
    ∧ (∀ r k ch, (∀ q, q ∈ l → ¬ in_block x_min y_min q r k) →
         pixel s' r k ch = pixel s r k ch)
    ∧ (∀ q r k ch, q ∈ l → in_block x_min y_min q r k → 0 ≤ ch < 3 →
         pixel s' r k ch
         = tile_pixel imread w tile_path zoom q (pixel s r k ch)
             (r - (q.2 - y_min) * 256) (k - (q.1 - x_min) * 256) ch).
Proof.
  revert s. induction l as [|q0 l IH]; intros s Hch Hin Hwf; simpl.
  { exists s. split_and!; try done. intros q r k ch Hq. by apply elem_of_nil in Hq. }
  destruct (Hin q0) as (Hi & Hh & Hj & Hw); [by left|].
  destruct (combine_one_spec w tile_path x_min y_min zoom q0.1 q0.2 s)
    as (s1 & -> & Hh1 & Hw1 & Hch1 & Hpix1); try done.
  { intros content. apply Hwf. by left. }
  destruct (IH s1) as (s' & -> & Hh' & Hw' & Hch' & Hframe & Hblock); try done.
  { intros q Hq. rewrite Hh1, Hw1. apply Hin. by right. }
  { intros q content Hq. apply Hwf. by right. }
  rewrite <-(surjective_pairing q0) in Hpix1.
  exists s'. split_and!; try congruence.
  - intros r k ch Hout. rewrite Hframe.
    + rewrite Hpix1, bool_decide_eq_false_2; [done|].
      intros [Hb _]. by apply (Hout q0); [left|].
    + intros q Hq. apply Hout. by right.
  - intros q r k ch Hq Hb Hc. destruct (decide (q ∈ l)) as [Hl|Hl].
    + rewrite (Hblock q r k ch Hl Hb Hc), Hpix1. case_bool_decide as Hq0; [|done].
      destruct Hq0 as [Hb0 _]. rewrite (in_block_inj _ _ _ _ _ _ Hb0 Hb).
      apply tile_pixel_idemp.
    + apply elem_of_cons in Hq as [->|Hq]; [|done].
      rewrite Hframe.
      * by rewrite Hpix1, bool_decide_eq_true_2.
      * intros q Hq Hbq. apply Hl. by rewrite (in_block_inj _ _ _ _ _ _ Hb Hbq).
Qed.

(** On a range whose cached tiles are well formed, [combine_supertile]
    returns. *)
Lemma combine_supertile_returns x_min x_max y_min y_max zoom tile_path w :
  x_min ≤ x_max → y_min ≤ y_max →
  (∀ x y content, x_min ≤ x ≤ x_max → y_min ≤ y ≤ y_max →
     files w !! joinpath tile_path (tile_name zoom x y) = Some content →
     ∃ tile_img, imread content = Some tile_img ∧ well_formed_tile tile_img) →
  ∃ supertile,
    combine_supertile imread x_min x_max y_min y_max zoom tile_path w = Ok supertile.
Proof.
  intros Hx Hy Hwf. unfold combine_supertile, OSM_TILE_SIZE.
  rewrite bool_decide_eq_false_2 by lia.
  rewrite (for_each_nested (combine_one imread w tile_path x_min y_min zoom)).
  fold (tiles_of_range x_min x_max y_min y_max).
  destruct (combine_loop_spec w tile_path x_min y_min zoom
              (tiles_of_range x_min x_max y_min y_max)
              (np_zeros ((y_max - y_min + 1) * 256) ((x_max - x_min + 1) * 256) 3))
    as (st & Hrun & _); try done.
  - intros [x y] Hq. apply elem_of_tiles_of_range in Hq. simpl. lia.
  - intros [x y] content Hq. apply elem_of_tiles_of_range in Hq as [??].
    by apply Hwf.
  - by exists st.
Qed.

Lemma for_each_preserves {A S} (P : S → Prop) (l : list A)
    (body : A → S → result S) (s s' : S) :
  (∀ a s s', P s → body a s = Ok s' → P s') →
  P s → for_each l body s = Ok s' → P s'.
Proof.
  intros Hbody. revert s. induction l as [|a l IH]; intros s Hs; simpl.
  - by intros [= <-].
  - destruct (body a s) as [s1|e] eqn:Ha; [|done]. eauto.
Qed.



End Assembler.


(** ** The feature lookup client *)

Section LookupClient.

Variable server : nat → request → http_outcome.
Variable json_loads : string → option json.

Lemma empty_geometry_type : empty_geometry !! "type" = Some (JStr "").
Proof. unfold empty_geometry. by rewrite lookup_insert_eq. Qed.

Lemma empty_geometry_geojson : empty_geometry !! "geojson" = Some (JObj []).
Proof.
  unfold empty_geometry. rewrite lookup_insert_ne by done.
  by rewrite lookup_insert_eq.
Qed.

(** C8, as the code has it.  One request is sent.  The default empty
    geometry is returned when the response is not ok and when its body
    parses to an empty array (or another value of length zero).  Nothing is
    caught: a failing request and a body that does not parse raise, and so
    does a first element without a type or a geojson entry. *)
Theorem lookup_geojson_by_id_cases osm_id element_type w :
  let req := lookup_request element_type osm_id in
  let w1 := World (files w) (dirs w) (requests w ++ [req]) (stdout w) in
  let r := lookup_geojson_by_id server json_loads osm_id element_type w in
  r.2 = w1
  ∧ match server (length (requests w)) req with
    | ConnectionFailed e => r.1 = Raise (RequestException e)
    | Response false _ => r.1 = Ok empty_geometry
    | Response true content =>
        match json_loads content with
        | None => r.1 = Raise JSONDecodeError
        | Some cont =>
            match py_len cont with
            | Raise e => r.1 = Raise e
            | Ok O => r.1 = Ok empty_geometry
            | Ok (S _) =>
                match py_item 0 cont with
                | Raise e => r.1 = Raise e
                | Ok first =>
                    match py_getitem "type" first, py_getitem "geojson" first with
                    | Ok t, Ok g => r.1 = Ok (geometry t g)
                    | Raise e, _ => r.1 = Raise e
                    | Ok _, Raise e => r.1 = Raise e
                    end
                end
            end
        end
    end.
Proof.
  intros req w1 r. unfold r, lookup_geojson_by_id, requests_get.
  fold (lookup_request element_type osm_id). fold req.
  destruct (server _ req) as [e|[] content]; simpl; try done.
  destruct (json_loads content) as [cont|]; simpl; [|done].
  unfold bind, lift, ret.
  destruct (py_len cont) as [[|n]|e]; simpl; try done.
  rewrite bool_decide_eq_true_2 by (rewrite empty_geometry_type; eauto).
  destruct (py_item 0 cont) as [first|e]; simpl; [|done].
  destruct (py_getitem "type" first) as [t|e]; simpl.
  - rewrite bool_decide_eq_true_2
      by (rewrite lookup_insert_ne by done; rewrite empty_geometry_geojson; eauto).
    by destruct (py_getitem "geojson" first) as [g|e'].
  - by destruct (py_getitem "geojson" first).
Qed.

(** The URL is the server name followed by [lookup.php], with nothing in
    between. *)
Example lookup_request_example :
  lookup_request "W" 4321
  = Get "https://nominatim.openstreetmap.orglookup.php"
        [("osm_ids", "W4321"); ("format", "jsonv2"); ("polygon_geojson", "1")].
Proof. reflexivity. Qed.

(** A lookup that resolves appends the coordinates it found. *)
Lemma lookup_into_found element_type id acc w coordinates :
  found_coordinates server json_loads (length (requests w))
    (lookup_request element_type id) = Some coordinates →
  ∃ d, lookup_into server json_loads element_type id acc w
       = (Ok (<[id := d]> acc.1, acc.2 ++ coordinates),
          World (files w) (dirs w) (requests w ++ [lookup_request element_type id])
                (stdout w)).
Proof.
  intros Hf. unfold found_coordinates in Hf.
  unfold lookup_into, lookup_geojson_by_id, requests_get, bind at 1.
  fold (lookup_request element_type id).
  destruct (server _ _) as [|[] content]; try done.
  destruct (json_loads content) as [[| | | |[|[| | | | |kv] rest]|]|]; try done.
  destruct (assoc "type" kv) as [t|] eqn:Ht; [|done].
  destruct (assoc "geojson" kv) as [[| | | | |g]|] eqn:Hg; try done.
  destruct (assoc "coordinates" g) as [[| | | |cs|]|] eqn:Hc; try done.
  injection Hf as <-.
  unfold bind, lift, ret; simpl.
  rewrite bool_decide_eq_true_2 by (rewrite empty_geometry_type; eauto).
  rewrite Ht.
  rewrite bool_decide_eq_true_2
    by (rewrite lookup_insert_ne by done; rewrite empty_geometry_geojson; eauto).
  rewrite Hg, lookup_insert_eq. simpl. rewrite Hc. simpl. by eexists.
Qed.

Lemma lookup_all_found element_type ids acc w cs :
  all_found server json_loads (length (requests w)) element_type ids = Some cs →
  ∃ found,
    lookup_all server json_loads element_type ids acc w
    = (Ok (found, acc.2 ++ concat cs),
       World (files w) (dirs w)
             (requests w ++ (lookup_request element_type <$> ids)) (stdout w)).
Proof.
  revert acc w cs. induction ids as [|id ids IH]; intros acc w cs; simpl.
  - intros [= <-]. exists acc.1. simpl. rewrite !app_nil_r.
    by destruct acc, w.
  - destruct (found_coordinates _ _ _ _) as [c|] eqn:Hc; [|done].
    destruct (all_found _ _ _ _ _) as [cs'|] eqn:Hcs; [|done].
    intros [= <-].
    destruct (lookup_into_found element_type id acc w c Hc) as [d Hd].
    unfold bind. rewrite Hd.
    destruct (IH (<[id := d]> acc.1, acc.2 ++ c)
                 (World (files w) (dirs w)
                    (requests w ++ [lookup_request element_type id]) (stdout w)) cs')
      as [found Hfound].
    { simpl. rewrite length_app. simpl. by rewrite Nat.add_1_r. }
    exists found. rewrite Hfound. simpl. by rewrite <-!app_assoc.
Qed.

(** What C7 says holds as long as every element resolves to a geometry with
    coordinates: one request for each id, in the order of the lists, the
    ways first; and the two lists returned hold the coordinates found. *)
Lemma download_map_data_nominatim_found way_ids node_ids w wcs ncs :
  all_found server json_loads (length (requests w)) "W" way_ids = Some wcs →
  all_found server json_loads (length (requests w) + length way_ids) "N" node_ids
  = Some ncs →
  ∃ md w',
    download_map_data_nominatim server json_loads (Some way_ids) (Some node_ids) w
    = (Ok md, w')
    ∧ requests w' = requests w ++ (lookup_request "W" <$> way_ids)
                                ++ (lookup_request "N" <$> node_ids)
    ∧ length (new_requests w w') = (length way_ids + length node_ids)%nat
    ∧ way_coords md = concat wcs ∧ node_coords md = concat ncs
    ∧ (length (way_coords md) + length (node_coords md))%nat
      = (sum_list (length <$> wcs) + sum_list (length <$> ncs))%nat.
Proof.
  intros Hw Hn.
  destruct (lookup_all_found "W" way_ids (∅, []) w wcs Hw) as [wf Hwf].
  set (w1 := World _ _ _ _) in Hwf.
  destruct (lookup_all_found "N" node_ids (∅, []) w1 ncs) as [nf Hnf].
  { unfold w1; simpl. by rewrite length_app, length_fmap. }
  eexists _, _. split.
  { unfold download_map_data_nominatim, bind, ret; simpl.
    rewrite Hwf, Hnf. reflexivity. }
  simpl. unfold new_requests; simpl.
  rewrite <-app_assoc, drop_app_length, length_app, !length_fmap, !length_concat.
  done.
Qed.

End LookupClient.

(** ** The projection module *)

Section ProjectionFacts.
Local Open Scope R_scope.

Lemma Int_part_bounds (x : R) : IZR (Int_part x) <= x < IZR (Int_part x) + 1.
Proof. destruct (base_Int_part x). lra. Qed.

Lemma Int_part_IZR (z : Z) : Int_part (IZR z) = z.
Proof. symmetry. apply Int_part_spec. lra. Qed.

Lemma py_int_IZR (z : Z) : py_int (IZR z) = z.
Proof.
  unfold py_int. destruct (Rle_dec 0 (IZR z)).
  - apply Int_part_IZR.
  - rewrite <-opp_IZR, Int_part_IZR. lia.
Qed.



Lemma np_ceil_spec (x : R) (k : Z) : np_ceil x = IZR k ↔ IZR k - 1 < x <= IZR k.
Proof.
  unfold np_ceil. split.
  - intros H. apply eq_IZR in H. subst k.
    destruct (Int_part_bounds (- x)). rewrite opp_IZR. lra.
  - intros H. f_equal. rewrite <-(Int_part_spec (- x) (- k)); [lia|].
    rewrite opp_IZR. lra.
Qed.

Lemma ln_2_pos : 0 < ln 2.
Proof. rewrite <-ln_1. apply ln_increasing; lra. Qed.

Lemma ln_powerRZ_2 (k : Z) : ln (powerRZ 2 k) = IZR k * ln 2.
Proof.
  rewrite powerRZ_Rpower by lra. unfold Rpower. by rewrite ln_exp.
Qed.

Lemma ceil_log2_spec (x : R) (k : Z) :
  0 < x → ceil_log2 x = k ↔ powerRZ 2 (k - 1) < x <= powerRZ 2 k.
Proof.
  intros Hx. unfold ceil_log2.
  assert (np_ceil (np_log2 x) = IZR k ↔ (- Int_part (- np_log2 x))%Z = k) as <-.
  { unfold np_ceil. split; [apply eq_IZR | by intros ->]. }
  rewrite np_ceil_spec. unfold np_log2.
  pose proof ln_2_pos as H2.
  assert (∀ j, powerRZ 2 j < x ↔ IZR j < ln x / ln 2) as Hlt.
  { intros j. rewrite <-(exp_ln x) at 1 by done.
    rewrite <-(exp_ln (powerRZ 2 j)) by (apply powerRZ_lt; lra).
    rewrite ln_powerRZ_2. split.
    - intros H. apply exp_lt_inv in H. apply Rmult_lt_reg_r with (ln 2); [done|].
      unfold Rdiv. rewrite Rmult_assoc, Rinv_l by lra. lra.
    - intros H. apply exp_increasing.
      apply Rmult_lt_compat_r with (r := ln 2) in H; [|done].
      unfold Rdiv in H. rewrite Rmult_assoc, Rinv_l in H by lra. lra. }
  assert (∀ j, x <= powerRZ 2 j ↔ ln x / ln 2 <= IZR j) as Hle.
  { intros j. split; intros H; apply Rnot_lt_le; intros H'; apply Hlt in H'; lra. }
  rewrite Hlt, Hle, minus_IZR. done.
Qed.

Lemma Rmin_IZR (a b : Z) : Rmin (IZR a) (IZR b) = IZR (Z.min a b).
Proof.
  unfold Rmin. destruct (Rle_dec (IZR a) (IZR b)) as [H|H].
  - apply le_IZR in H. by rewrite Z.min_l.
  - apply Rnot_le_lt, lt_IZR in H. by rewrite Z.min_r by lia.
Qed.

Lemma Rmax_IZR (a b : Z) : Rmax (IZR a) (IZR b) = IZR (Z.max a b).
Proof.
  unfold Rmax. destruct (Rle_dec (IZR a) (IZR b)) as [H|H].
  - apply le_IZR in H. by rewrite Z.max_r.
  - apply Rnot_le_lt, lt_IZR in H. by rewrite Z.max_l by lia.
Qed.

(** The code computes the formula: rounding up and clamping of whole
    numbers agree on floats and on integers. *)
Lemma calculate_zoom_level_eq (min_lon max_lon min_lat max_lat : R) :
  calculate_zoom_level min_lon max_lon min_lat max_lat
  = zoom_level_formula min_lon max_lon min_lat max_lat.
Proof.
  unfold calculate_zoom_level, zoom_level_formula, np_ceil, ceil_log2.
  rewrite Rmin_IZR, <-(plus_IZR _ 1), Rmin_IZR, Rmax_IZR, py_int_IZR. lia.
Qed.

(** [ceil(log2(c / s))] is the least [k] such that [s * 2^k] reaches [c]. *)
Lemma ceil_log2_ratio (c s : R) (k : Z) :
  0 < c → 0 < s →
  ceil_log2 (c / s) = k ↔ s * powerRZ 2 (k - 1) < c <= s * powerRZ 2 k.
Proof.
  intros Hc Hs. rewrite ceil_log2_spec by (by apply Rdiv_lt_0_compat).
  assert (∀ p, p < c / s ↔ s * p < c) as Hl.
  { intros p. split; intros H.
    - apply Rmult_lt_compat_l with (r := s) in H; [|done].
      replace (s * (c / s)) with c in H by (field; lra). done.
    - apply Rmult_lt_reg_l with s; [done|].
      replace (s * (c / s)) with c by (field; lra). done. }
  assert (∀ p, c / s <= p ↔ c <= s * p) as Hr.
  { intros p. split; intros H; apply Rnot_lt_le; intros H'; apply Hl in H'; lra. }
  by rewrite Hl, Hr.
Qed.


(** The estimate for the box 13.3 .. 13.5 by 52.5 .. 52.6 is 11. *)
Lemma calculate_zoom_level_berlin :
  calculate_zoom_level (133 / 10) (135 / 10) (525 / 10) (526 / 10) = 11%Z.
Proof.
  rewrite calculate_zoom_level_eq. unfold zoom_level_formula.
  assert (ceil_log2 (360 / (526 / 10 - 525 / 10)) = 12%Z) as ->
    by (apply ceil_log2_ratio; simpl; lra).
  assert (ceil_log2 (1701023 / 10000 / (135 / 10 - 133 / 10)) = 10%Z) as ->
    by (apply ceil_log2_ratio; simpl; lra).
  done.
Qed.

(** Half a turn in semicircles is 180 degrees. *)
Example sc2deg_half_turn : sc2deg (2 ^ 31) = 180.
Proof. unfold sc2deg. field. Qed.

(** *** The round trip through the tile index *)

Lemma num2deg_lat x_tile y_tile zoom :
  (num2deg x_tile y_tile zoom).1 = lat_of_y (IZR y_tile) zoom.
Proof. reflexivity. Qed.

Lemma lat_of_y_0 zoom : lat_of_y 0 zoom = max_latitude.
Proof.
  unfold lat_of_y, max_latitude. do 3 f_equal.
  unfold Rdiv. rewrite Rmult_0_r, Rmult_0_l. lra.
Qed.

Lemma np_degrees_lt a b : a < b → np_degrees a < np_degrees b.
Proof.
  intros H. unfold np_degrees. pose proof PI_RGT_0.
  apply Rmult_lt_compat_r; [by apply Rinv_0_lt_compat|lra].
Qed.

Lemma lat_of_y_decreasing y1 y2 zoom :
  y1 < y2 → lat_of_y y2 zoom < lat_of_y y1 zoom.
Proof.
  intros H. unfold lat_of_y.
  apply np_degrees_lt, atan_increasing, sinh_lt.
  pose proof PI_RGT_0.
  assert (0 < powerRZ 2 zoom) as Hn by (apply powerRZ_lt; lra).
  apply Rmult_lt_compat_l; [done|].
  assert (y1 / powerRZ 2 zoom < y2 / powerRZ 2 zoom).
  { apply Rmult_lt_compat_r; [by apply Rinv_0_lt_compat|done]. }
  unfold Rdiv in *. rewrite !Rmult_assoc. lra.
Qed.

Lemma np_radians_bound lat :
  Rabs lat < 90 → - (PI / 2) < np_radians lat < PI / 2.
Proof.
  intros H. apply Rabs_def2 in H as [H1 H2]. unfold np_radians.
  pose proof PI_RGT_0. split; nra.
Qed.

(** The Mercator ordinate is inverted by the Gudermannian of [num2deg]. *)
Lemma sinh_mercator a :
  - (PI / 2) < a < PI / 2 → sinh (ln (tan a + 1 / cos a)) = tan a.
Proof.
  intros [H1 H2].
  assert (0 < cos a) as Hc by by apply cos_gt_0.
  pose proof (sin2_cos2 a) as Hsc. unfold Rsqr in Hsc.
  assert (-1 < sin a < 1) as [Hs1 Hs2] by (split; nra).
  assert (tan a + 1 / cos a = (1 + sin a) / cos a) as ->
    by (unfold tan; field; lra).
  assert (0 < (1 + sin a) / cos a) as Hu by (apply Rdiv_lt_0_compat; lra).
  unfold sinh. rewrite exp_Ropp, exp_ln by done.
  unfold tan. field_simplify; [|lra|lra].
  replace (cos a ^ 2) with (1 - sin a * sin a) by lra.
  assert (0 < cos a * (1 + sin a)) by (apply Rmult_lt_0_compat; lra).
  field. split; lra.
Qed.

Lemma mercator_positive a :
  - (PI / 2) < a < PI / 2 → 0 < tan a + 1 / cos a.
Proof.
  intros [H1 H2].
  assert (0 < cos a) as Hc by by apply cos_gt_0.
  pose proof (sin2_cos2 a) as Hsc. unfold Rsqr in Hsc.
  assert (-1 < sin a < 1) as [Hs1 Hs2] by (split; nra).
  assert (tan a + 1 / cos a = (1 + sin a) / cos a) as ->
    by (unfold tan; field; lra).
  apply Rdiv_lt_0_compat; lra.
Qed.

Lemma lat_of_y_deg2xy lat lon zoom :
  Rabs lat < 90 → lat_of_y (deg2xy lat lon zoom).2 zoom = lat.
Proof.
  intros Hlat. apply np_radians_bound in Hlat as Ha.
  unfold lat_of_y, deg2xy; simpl.
  pose proof PI_RGT_0.
  assert (0 < powerRZ 2 zoom) as Hn by (apply powerRZ_lt; lra).
  match goal with |- np_degrees (atan (sinh ?e)) = _ =>
    replace e with (ln (tan (np_radians lat) + 1 / cos (np_radians lat)))
      by (field; lra)
  end.
  rewrite sinh_mercator, atan_tan by done.
  unfold np_degrees, np_radians. field. lra.
Qed.






Lemma max_latitude_nonneg : 0 < max_latitude.
Proof.
  unfold max_latitude. replace 0 with (np_degrees 0) by (unfold np_degrees; lra).
  apply np_degrees_lt. rewrite <-atan_0. apply atan_increasing.
  rewrite <-sinh_0. apply sinh_lt, PI_RGT_0.
Qed.

(** Within the latitudes the projection covers the ordinate is not
    negative, and conversely. *)
Lemma deg2xy_y_nonneg lat lon zoom :
  Rabs lat < 90 → 0 <= (deg2xy lat lon zoom).2 ↔ lat <= max_latitude.
Proof.
  intros Hlat. rewrite <-(lat_of_y_0 zoom).
  rewrite <-(lat_of_y_deg2xy lat lon zoom Hlat) at 2.
  split; intros H.
  - destruct H as [H| <-]; [left; by apply lat_of_y_decreasing|right; done].
  - apply Rnot_lt_le. intros H'.
    apply (lat_of_y_decreasing _ _ zoom) in H'. lra.
Qed.



Lemma Int_part_le (x y : R) : x <= y → (Int_part x ≤ Int_part y)%Z.
Proof.
  intros H. destruct (Int_part_bounds x), (Int_part_bounds y).
  assert (IZR (Int_part x) < IZR (Int_part y + 1)) as Hlt
    by (rewrite plus_IZR; lra).
  apply lt_IZR in Hlt. lia.
Qed.

Lemma Int_part_nonneg (x : R) : 0 <= x → (0 ≤ Int_part x)%Z.
Proof. intros H. rewrite <-(Int_part_IZR 0). by apply Int_part_le. Qed.

(** Truncation towards zero is monotone. *)
Lemma py_int_le (x y : R) : x <= y → (py_int x ≤ py_int y)%Z.
Proof.
  intros H. unfold py_int.
  destruct (Rle_dec 0 x) as [Hx|Hx%Rnot_le_lt], (Rle_dec 0 y) as [Hy|Hy%Rnot_le_lt].
  - by apply Int_part_le.
  - exfalso. lra.
  - assert (0 <= - x) as Hx' by lra.
    pose proof (Int_part_nonneg (- x) Hx'). pose proof (Int_part_nonneg y Hy). lia.
  - assert (- y <= - x) as Hxy by lra.
    pose proof (Int_part_le (- y) (- x) Hxy). lia.
Qed.

(** Tile columns grow eastwards and tile rows grow southwards. *)
Lemma deg2tile_coord_monotone lat1 lon1 lat2 lon2 zoom :
  Rabs lat1 < 90 → Rabs lat2 < 90 → lat1 <= lat2 → lon1 <= lon2 →
  ((deg2tile_coord lat1 lon1 zoom).1 ≤ (deg2tile_coord lat2 lon2 zoom).1
   ∧ (deg2tile_coord lat2 lon2 zoom).2 ≤ (deg2tile_coord lat1 lon1 zoom).2)%Z.
Proof.
  intros H1 H2 Hlat Hlon.
  pose proof (lat_of_y_deg2xy lat1 lon1 zoom H1) as Hi1.
  pose proof (lat_of_y_deg2xy lat2 lon2 zoom H2) as Hi2.
  assert (0 < powerRZ 2 zoom) as Hn by (apply powerRZ_lt; lra).
  unfold deg2tile_coord.
  destruct (deg2xy lat1 lon1 zoom) as [x1 y1] eqn:E1.
  destruct (deg2xy lat2 lon2 zoom) as [x2 y2] eqn:E2.
  simpl in *. split; apply py_int_le.
  - injection E1 as <- _. injection E2 as <- _.
    apply Rmult_le_compat_r; lra.
  - apply Rnot_lt_le. intros Hy.
    apply (lat_of_y_decreasing _ _ zoom) in Hy. lra.
Qed.

End ProjectionFacts.

(** ** The main pipeline *)

Section MainFacts.

Variable server : nat → request → http_outcome.
Variable imsave : image → string.
Variable imread : string → option image.
Variable json_loads : string → option json.


(** What a successful run of the first part of [main] computed. *)
Lemma main_extent_inv draw w e w' :
  main_extent server json_loads draw w = (Ok e, w') →
  download_map_data_nominatim server json_loads
    (Some (draw_ways draw)) (Some (draw_nodes draw)) w = (Ok (data e), w')
  ∧ np_min_column 0 (way_coords (data e)) = Ok (min_lon e)
  ∧ np_max_column 0 (way_coords (data e)) = Ok (max_lon e)
  ∧ np_min_column 1 (way_coords (data e)) = Ok (min_lat e)
  ∧ np_max_column 1 (way_coords (data e)) = Ok (max_lat e)
  ∧ zoom_level e = 17
  ∧ deg2tile_coord (min_lat e) (min_lon e) 17 = (x_tile_min e, y_tile_max e)
  ∧ deg2tile_coord (max_lat e) (max_lon e) 17 = (x_tile_max e, y_tile_min e).
Proof.
  unfold main_extent, bind, lift, ret.
  destruct (download_map_data_nominatim _ _ _ _ w) as [[md|err] w1]; [|done].
  destruct (np_min_column 0 _) as [a|err] eqn:Ha; [|done].
  destruct (np_max_column 0 _) as [b|err] eqn:Hb; [|done].
  destruct (np_min_column 1 _) as [c|err] eqn:Hc; [|done].
  destruct (np_max_column 1 _) as [d|err] eqn:Hd; [|done].
  destruct (deg2tile_coord c a 17) as [x0 y1] eqn:H0.
  destruct (deg2tile_coord d b 17) as [x1 y0] eqn:H1.
  intros [= <- <-]. simpl. by rewrite Ha, Hb, Hc, Hd, H0, H1.
Qed.

(** ... and when that part succeeds. *)
Lemma main_extent_intro draw w md w' a b c d :
  download_map_data_nominatim server json_loads
    (Some (draw_ways draw)) (Some (draw_nodes draw)) w = (Ok md, w') →
  np_min_column 0 (way_coords md) = Ok a →
  np_max_column 0 (way_coords md) = Ok b →
  np_min_column 1 (way_coords md) = Ok c →
  np_max_column 1 (way_coords md) = Ok d →
  main_extent server json_loads draw w
  = (Ok (Extent md a b c d 17
           (deg2tile_coord c a 17).1 (deg2tile_coord d b 17).1
           (deg2tile_coord d b 17).2 (deg2tile_coord c a 17).2), w').
Proof.
  intros Hd Ha Hb Hc Hdd. unfold main_extent, bind, lift, ret.
  rewrite Hd, Ha, Hb, Hc, Hdd.
  by destruct (deg2tile_coord c a 17), (deg2tile_coord d b 17).
Qed.

Lemma main_inv draw w e st w' :
  main server imsave imread json_loads draw w = (Ok (e, st), w') →
  ∃ w1, main_extent server json_loads draw (mkdir "figs" w) = (Ok e, w1)
    ∧ w' = download_tiles_for_area server imsave
             (x_tile_min e) (x_tile_max e) (y_tile_min e) (y_tile_max e)
             (zoom_level e) default_url w1
    ∧ combine_supertile imread
        (x_tile_min e) (x_tile_max e) (y_tile_min e) (y_tile_max e)
        (zoom_level e) "tiles" w' = Ok st.
Proof.
  unfold main, bind.
  destruct (main_extent _ _ _ _) as [[e1|err] w1]; [|done].
  destruct (combine_supertile _ _ _ _ _ _ _ _) as [st1|err] eqn:Hc; [|done].
  intros [= <- <- <-]. by exists w1.
Qed.

Lemma main_intro draw w e w1 st :
  main_extent server json_loads draw (mkdir "figs" w) = (Ok e, w1) →
  combine_supertile imread
    (x_tile_min e) (x_tile_max e) (y_tile_min e) (y_tile_max e)
    (zoom_level e) "tiles"
    (download_tiles_for_area server imsave
       (x_tile_min e) (x_tile_max e) (y_tile_min e) (y_tile_max e)
       (zoom_level e) default_url w1) = Ok st →
  main server imsave imread json_loads draw w
  = (Ok (e, st),
     download_tiles_for_area server imsave
       (x_tile_min e) (x_tile_max e) (y_tile_min e) (y_tile_max e)
       (zoom_level e) default_url w1).
Proof.
  intros He Hc. unfold main, bind. by rewrite He, Hc.
Qed.

(** C9, as the code has it.  The zoom level of the pipeline is the constant
    17: the tile range is computed, the tiles are downloaded and the
    supertile is assembled at zoom 17, whatever the bounding box is.  The
    call of [calculate_zoom_level] is commented out, and [main] has no
    argument through which a caller could supply a zoom level. *)
Theorem main_zoom_level_is_17 draw w e st w' :
  main server imsave imread json_loads draw w = (Ok (e, st), w') →
  zoom_level e = 17
  ∧ (x_tile_min e, y_tile_max e) = deg2tile_coord (min_lat e) (min_lon e) 17
  ∧ (x_tile_max e, y_tile_min e) = deg2tile_coord (max_lat e) (max_lon e) 17
  ∧ (∃ w1, w' = download_tiles_for_area server imsave
                  (x_tile_min e) (x_tile_max e) (y_tile_min e) (y_tile_max e)
                  17 default_url w1)
  ∧ combine_supertile imread
      (x_tile_min e) (x_tile_max e) (y_tile_min e) (y_tile_max e)
      17 "tiles" w' = Ok st.
Proof.
  intros (w1 & He & Hw & Hc)%main_inv.
  destruct (main_extent_inv _ _ _ _ He) as (_ & _ & _ & _ & _ & Hz & H0 & H1).
  rewrite Hz in Hw, Hc. split_and!; try done. by exists w1.
Qed.


End MainFacts.

Section MainRuns.

Variable server : nat → request → http_outcome.
Variable imsave : image → string.
Variable imread : string → option image.
Variable json_loads : string → option json.

(** [main] runs to its end when the lookups succeed, the box lies between
    the poles and every cached tile is a well-formed tile image. *)
Lemma main_succeeds draw w md w1 (a b c d : R) :
  download_map_data_nominatim server json_loads
    (Some (draw_ways draw)) (Some (draw_nodes draw)) (mkdir "figs" w) = (Ok md, w1) →
  np_min_column 0 (way_coords md) = Ok a →
  np_max_column 0 (way_coords md) = Ok b →
  np_min_column 1 (way_coords md) = Ok c →
  np_max_column 1 (way_coords md) = Ok d →
  (Rabs c < 90)%R → (Rabs d < 90)%R → (a <= b)%R → (c <= d)%R →
  (∀ content, ∃ tile_img, imread content = Some tile_img ∧ well_formed_tile tile_img) →
  ∃ e st w',
    main server imsave imread json_loads draw w = (Ok (e, st), w')
    ∧ data e = md
    ∧ min_lon e = a ∧ max_lon e = b ∧ min_lat e = c ∧ max_lat e = d.
Proof.
  intros Hd Ha Hb Hc Hdd Hc90 Hd90 Hab Hcd Him.
  pose proof (main_extent_intro server json_loads draw _ _ _ _ _ _ _ Hd Ha Hb Hc Hdd)
    as He.
  destruct (deg2tile_coord_monotone c a d b 17 Hc90 Hd90 Hcd Hab) as [Hx Hy].
  set (e := Extent _ _ _ _ _ _ _ _ _ _) in He.
  destruct (combine_supertile_returns imread
              (x_tile_min e) (x_tile_max e) (y_tile_min e) (y_tile_max e)
              (zoom_level e) "tiles"
              (download_tiles_for_area server imsave
                 (x_tile_min e) (x_tile_max e) (y_tile_min e) (y_tile_max e)
                 (zoom_level e) default_url w1))
    as (st & Hst); [done|done|by intros|].
  exists e, st. eexists. split; [by apply main_intro|done].
Qed.

End MainRuns.

(** ** The claims at concrete inputs *)

(** C7 fails on the code.  Way 1 resolves to no geometry (the response is
    not ok), so [lookup_geojson_by_id] returns the default dict; its
    [geojson] entry is there but empty, reading its coordinates raises
    [KeyError], and ways 2 and node 3 are never looked up: one request is
    issued, not three. *)
Example download_map_data_nominatim_empty_geometry_raises :
  download_map_data_nominatim refusing_server loads_nothing
    (Some [1; 2]) (Some [3]) empty_world
  = (Raise (KeyError "coordinates"),
     World ∅ ∅ [lookup_request "W" 1] []).
Proof. reflexivity. Qed.

(** The same happens when the response is ok and holds an empty array. *)
Example download_map_data_nominatim_not_found_raises :
  (download_map_data_nominatim answering_server (λ _, Some (JArr []))
     (Some [1; 2]) (Some [3]) empty_world).1
  = Raise (KeyError "coordinates").
Proof. reflexivity. Qed.

(** C8 fails on the code: without a connection the lookup raises, and so
    it does on a body that is not JSON. *)
Lemma lookup_geojson_by_id_propagates_errors :
  (lookup_geojson_by_id offline_server loads_nothing 1 "W" empty_world).1
  = Raise (RequestException "offline")
  ∧ (lookup_geojson_by_id answering_server loads_nothing 1 "W" empty_world).1
    = Raise JSONDecodeError
  ∧ (lookup_geojson_by_id offline_server loads_nothing 1 "W" empty_world).1
    ≠ Ok empty_geometry.
Proof. split_and!; [reflexivity..|discriminate]. Qed.

(** Outside the data model the assembler raises, as NumPy does: a cached
    file that holds a greyscale image has no third axis to slice. *)
Example combine_supertile_greyscale_raises :
  combine_supertile (λ _, Some (Image 256 256 None (λ _ _ _, 0%Q))) 0 0 0 0 3 "tiles"
    (World {["tiles/tile_3_0_0.png" := "png"]} ∅ [] [])
  = Raise IndexError.
Proof. reflexivity. Qed.

Lemma imread_white_well_formed content :
  ∃ tile_img, imread_white content = Some tile_img ∧ well_formed_tile tile_img.
Proof.
  eexists. split; [reflexivity|]. split_and!; [done..|]. by exists 4.
Qed.

(** The lookups of one way and of the given nodes, all found. *)
Lemma lookup_found coordinates node_ids w :
  ∃ md w1,
    download_map_data_nominatim answering_server (loads_way coordinates)
      (Some [1]) (Some node_ids) w = (Ok md, w1)
    ∧ way_coords md = coordinates.
Proof.
  assert (∀ acc w, ∃ acc' w',
            lookup_all answering_server (loads_way coordinates) "W" [1] acc w
            = (Ok acc', w') ∧ acc'.2 = acc.2 ++ coordinates) as Hway.
  { intros acc v. eexists _, _. split; reflexivity. }
  assert (∀ ids acc w, ∃ acc' w',
            lookup_all answering_server (loads_way coordinates) "N" ids acc w
            = (Ok acc', w')) as Hnodes.
  { induction ids as [|id ids IH]; intros acc v; [by eexists _, _|].
    destruct (IH (<[id := geometry (JStr "motorway")
                            (JObj [("type", JStr "LineString");
                                   ("coordinates", JArr coordinates)])]> acc.1,
                  acc.2 ++ coordinates)
                 (World (files v) (dirs v)
                    (requests v ++ [lookup_request "N" id]) (stdout v)))
      as (acc' & w' & IH').
    exists acc', w'. rewrite <-IH'. reflexivity. }
  destruct (Hway (∅, []) w) as (wr & w1 & Hw & Hc).
  destruct (Hnodes node_ids (∅, []) w1) as (nr & w2 & Hn).
  exists (MapData wr.1 nr.1 wr.2 nr.2), w2. split; [|done].
  unfold download_map_data_nominatim.
  change (default [] (Some [1])) with [1].
  change (default [] (Some node_ids)) with node_ids.
  unfold bind at 1. rewrite Hw. unfold bind at 1. by rewrite Hn.
Qed.

Lemma bounding_box_berlin :
  np_min_column 0 berlin_way = Ok (133 / 10)%R
  ∧ np_max_column 0 berlin_way = Ok (135 / 10)%R
  ∧ np_min_column 1 berlin_way = Ok (525 / 10)%R
  ∧ np_max_column 1 berlin_way = Ok (526 / 10)%R.
Proof.
  unfold np_min_column, np_max_column; simpl.
  split_and!; f_equal.
  - unfold Rmin. destruct (Rle_dec _ _); lra.
  - unfold Rmax. destruct (Rle_dec _ _); lra.
  - unfold Rmin. destruct (Rle_dec _ _); lra.
  - unfold Rmax. destruct (Rle_dec _ _); lra.
Qed.

Lemma bounding_box_origin i :
  (i < 2)%nat →
  np_min_column i origin_way = Ok 0%R ∧ np_max_column i origin_way = Ok 0%R.
Proof. destruct i as [|[|i]]; [done|done|lia]. Qed.

(** C9 fails on the code.  For a way from (13.3, 52.5) to (13.5, 52.6) the
    estimate of [calculate_zoom_level] is 11, but [main] works at zoom 17. *)
Lemma main_zoom_level_not_estimated :
  ∃ e st w',
    main answering_server imsave_blank imread_white (loads_way berlin_way)
      (DrawData [1] []) empty_world = (Ok (e, st), w')
    ∧ zoom_level e = 17
    ∧ calculate_zoom_level (min_lon e) (max_lon e) (min_lat e) (max_lat e) = 11
    ∧ zoom_level e ≠ calculate_zoom_level (min_lon e) (max_lon e) (min_lat e) (max_lat e).
Proof.
  destruct (lookup_found berlin_way [] (mkdir "figs" empty_world))
    as (md & w1 & Hd & Hway).
  destruct bounding_box_berlin as (Ha & Hb & Hc & Hdd).
  rewrite <-Hway in Ha, Hb, Hc, Hdd.
  destruct (main_succeeds answering_server imsave_blank imread_white
              (loads_way berlin_way) (DrawData [1] []) empty_world
              md w1 _ _ _ _ Hd Ha Hb Hc Hdd)
    as (e & st & w' & Hrun & _ & Ea & Eb & Ec & Ed).
  { apply Rabs_def1; lra. }
  { apply Rabs_def1; lra. }
  { lra. }
  { lra. }
  { apply imread_white_well_formed. }
  exists e, st, w'.
  assert (zoom_level e = 17) as Hz.
  { apply main_inv in Hrun as (v & He & _). by apply main_extent_inv in He as (_&_&_&_&_&?&_). }
  rewrite Ea, Eb, Ec, Ed, Hz, calculate_zoom_level_berlin. done.
Qed.

(** A run of [main] from the empty world: one way at the origin, any nodes,
    every request answered. *)
Lemma main_origin_run node_ids :
  ∃ e st w',
    main answering_server imsave_blank imread_white (loads_way origin_way)
      (DrawData [1] node_ids) empty_world = (Ok (e, st), w').
Proof.
  destruct (lookup_found origin_way node_ids (mkdir "figs" empty_world))
    as (md & w1 & Hd & Hway).
  destruct (bounding_box_origin 0) as [Ha Hb]; [lia|].
  destruct (bounding_box_origin 1) as [Hc Hdd]; [lia|].
  rewrite <-Hway in Ha, Hb, Hc, Hdd.
  destruct (main_succeeds answering_server imsave_blank imread_white
              (loads_way origin_way) (DrawData [1] node_ids) empty_world
              md w1 _ _ _ _ Hd Ha Hb Hc Hdd)
    as (e & st & w' & Hrun & _).
  { rewrite Rabs_R0. lra. }
  { rewrite Rabs_R0. lra. }
  { lra. }
  { lra. }
  { apply imread_white_well_formed. }
  by exists e, st, w'.
Defined.

(** ** The theorems at inputs that meet their hypotheses *)




(** 501 tiles in a row. *)
Lemma download_tiles_for_area_rejects_witness :
  (500 - 0 + 1) * (0 - 0 + 1) > 500
  ∧ let w' := download_tiles_for_area answering_server imsave_blank
                0 500 0 0 9 default_url empty_world in
    stdout w' = ["ERROR zoom value too high"]
    ∧ requests w' = [] ∧ files w' = ∅ ∧ dirs w' = ∅.
Proof.
  assert ((500 - 0 + 1) * (0 - 0 + 1) > 500) as H by lia.
  split; [exact H|].
  exact (download_tiles_for_area_rejects answering_server imsave_blank
           0 500 0 0 9 default_url empty_world H).
Defined.

(** Four tiles, none of which the server delivers. *)
Lemma download_tiles_for_area_fills_cache_witness :
  let w' := download_tiles_for_area refusing_server imsave_blank
              0 1 0 1 1 default_url empty_world in
  (1 - 0 + 1) * (1 - 0 + 1) ≤ 500
  ∧ is_Some (files w' !! joinpath "tiles" (tile_name 1 1 0)).
Proof.
  intros w'.
  assert ((1 - 0 + 1) * (1 - 0 + 1) ≤ 500) as H by lia.
  split; [exact H|].
  destruct (download_tiles_for_area_fills_cache refusing_server imsave_blank
              0 1 0 1 1 default_url empty_world 1 0 H)
    as (content & Hc & _); [lia|lia|].
  by exists content.
Defined.

(** The run at the origin works at zoom 17. *)
Lemma main_zoom_level_is_17_witness :
  ∃ e st w',
    main answering_server imsave_blank imread_white (loads_way origin_way)
      (DrawData [1] []) empty_world = (Ok (e, st), w')
    ∧ zoom_level e = 17.
Proof.
  destruct (main_origin_run []) as (e & st & w' & Hrun).
  exists e, st, w'. split; [exact Hrun|].
  exact (proj1 (main_zoom_level_is_17 _ _ _ _ _ _ _ _ _ Hrun)).
Defined.


(** * Further properties of the code *)

(** ** More on the tile fetcher *)

Section FetcherMore.

Variable server : nat → request → http_outcome.
Variable imsave : image → string.

Lemma NoDup_tiles_of_range x_min x_max y_min y_max :
  NoDup (tiles_of_range x_min x_max y_min y_max).
Proof.
  unfold tiles_of_range, py_range. apply NoDup_bind.
  - intros x1 x2 q _ _ (y1 & -> & _)%list_elem_of_fmap (y2 & [= -> _] & _)%list_elem_of_fmap.
    done.
  - intros x _. apply NoDup_fmap_2; [|apply NoDup_seqZ]. by intros y1 y2 [= ->].
  - apply NoDup_seqZ.
Qed.

Lemma length_pairs {A B} (xs : list A) (ys : list B) :
  length (xs ≫= λ x, (λ y, (x, y)) <$> ys) = (length xs * length ys)%nat.
Proof.
  induction xs as [|x xs IH]; [done|].
  change (length (((λ y, (x, y)) <$> ys) ++ (xs ≫= λ x, (λ y, (x, y)) <$> ys))
          = (length (x :: xs) * length ys)%nat).
  rewrite length_app, length_fmap, IH. simpl. lia.
Qed.

Lemma length_tiles_of_range x_min x_max y_min y_max :
  length (tiles_of_range x_min x_max y_min y_max)
  = (Z.to_nat (x_max + 1 - x_min) * Z.to_nat (y_max + 1 - y_min))%nat.
Proof.
  unfold tiles_of_range, py_range. by rewrite length_pairs, !length_seqZ.
Qed.

Lemma filter_ext_elem {A} (P1 P2 : A → Prop)
    `{!∀ x, Decision (P1 x), !∀ x, Decision (P2 x)} (l : list A) :
  (∀ x, x ∈ l → P1 x ↔ P2 x) → filter P1 l = filter P2 l.
Proof.
  induction l as [|a l IH]; intros Hl; [done|].
  rewrite !filter_cons.
  rewrite IH by (intros x Hx; apply Hl; by right).
  destruct (decide (P1 a)) as [Ha1|Ha1], (decide (P2 a)) as [Ha2|Ha2]; try done.
  - destruct Ha2. apply Hl; [by left|done].
  - destruct Ha1. apply Hl; [by left|done].
Qed.

(** The requests of the download loop over distinct tiles: one for each
    tile missing from the cache, in the order of the loop. *)
Lemma download_loop_requests url zoom (l : list (Z * Z)) (w : world) :
  NoDup l →
  requests (foldl (λ w q, download_one server imsave url zoom q.1 q.2 w) w l)
  = requests w
    ++ ((λ q, Get (tile_url_of url zoom q.1 q.2) [])
          <$> filter (λ q, files w !! tile_file_of "tiles" zoom q.1 q.2 = None) l).
Proof.
  revert w. induction l as [|q0 l IH]; intros w Hnd; simpl.
  { by rewrite app_nil_r. }
  apply NoDup_cons in Hnd as [Hq0 Hnd].
  destruct (files w !! tile_file_of "tiles" zoom q0.1 q0.2) as [c|] eqn:Hc.
  - rewrite download_one_hit by (by rewrite Hc).
    rewrite filter_cons_False by (by rewrite Hc). by apply IH.
  - rewrite download_one_miss by done.
    rewrite filter_cons_True by done. rewrite IH by done. simpl.
    rewrite <-app_assoc. simpl. do 3 f_equal.
    apply filter_ext_elem.
    intros q Hq. rewrite lookup_insert_ne; [done|].
    intros [??]%tile_file_of_inj. apply Hq0.
    by replace q0 with q by (destruct q, q0; simpl in *; congruence).
Qed.

Lemma tiles_of_range_empty x_min x_max y_min y_max :
  x_max < x_min ∨ y_max < y_min → tiles_of_range x_min x_max y_min y_max = [].
Proof.
  intros H. apply length_zero_iff_nil. rewrite length_tiles_of_range. lia.
Qed.


(** X2. A call that is not rejected requests exactly the tiles of the range
    that have no file in the cache, each once, in the order of the loops:
    column by column, and from north to south within a column. *)
Theorem download_tiles_for_area_requests_missing x_min x_max y_min y_max zoom url w :
  (x_max - x_min + 1) * (y_max - y_min + 1) ≤ 500 →
  new_requests w
    (download_tiles_for_area server imsave x_min x_max y_min y_max zoom url w)
  = (λ q, Get (tile_url_of url zoom q.1 q.2) [])
      <$> filter (λ q, files w !! joinpath "tiles" (tile_name zoom q.1 q.2) = None)
                 (tiles_of_range x_min x_max y_min y_max).
Proof.
  intros Hcount. unfold new_requests.
  rewrite download_tiles_for_area_loop by done.
  rewrite download_loop_requests by apply NoDup_tiles_of_range.
  simpl. by rewrite drop_app_length.
Qed.

(** X3. No call issues more than 500 requests. *)
Theorem download_tiles_for_area_request_bound x_min x_max y_min y_max zoom url w :
  (length (new_requests w
     (download_tiles_for_area server imsave x_min x_max y_min y_max zoom url w))
   ≤ 500)%nat.
Proof.
  unfold new_requests.
  destruct (decide ((x_max - x_min + 1) * (y_max - y_min + 1) ≤ MAX_TILE_COUNT))
    as [Hcount|Hcount].
  - rewrite download_tiles_for_area_loop by done.
    rewrite download_loop_requests by apply NoDup_tiles_of_range.
    simpl. rewrite drop_app_length, length_fmap.
    etrans; [apply length_filter|]. rewrite length_tiles_of_range.
    unfold MAX_TILE_COUNT in Hcount.
    destruct (decide (0 < x_max + 1 - x_min ∧ 0 < y_max + 1 - y_min)) as [[??]|?].
    + rewrite <-Z2Nat.inj_mul by lia.
      replace 500%nat with (Z.to_nat 500) by done.
      apply Z2Nat.inj_le; [nia|lia|nia].
    + assert (Z.to_nat (x_max + 1 - x_min) = 0%nat
              ∨ Z.to_nat (y_max + 1 - y_min) = 0%nat) as [-> | ->] by lia; lia.
  - unfold download_tiles_for_area. rewrite bool_decide_eq_true_2 by lia.
    simpl. rewrite drop_all. simpl. lia.
Qed.

(** X4. A call never deletes or overwrites a file, and the only files it
    creates are the cache files of the tiles of its range.  It prints
    nothing unless it rejects the range, and then it does not create the
    cache directory. *)
Theorem download_tiles_for_area_frame x_min x_max y_min y_max zoom url w :
  let w' := download_tiles_for_area server imsave x_min x_max y_min y_max zoom url w in
  (∀ p c, files w !! p = Some c → files w' !! p = Some c)
  ∧ (∀ p, (∀ x y, x_min ≤ x ≤ x_max → y_min ≤ y ≤ y_max →
             p ≠ joinpath "tiles" (tile_name zoom x y)) →
          files w' !! p = files w !! p)
  ∧ ((x_max - x_min + 1) * (y_max - y_min + 1) ≤ 500 →
     stdout w' = stdout w ∧ dirs w' = {["tiles"]} ∪ dirs w)
  ∧ ((x_max - x_min + 1) * (y_max - y_min + 1) > 500 →
     stdout w' = stdout w ++ ["ERROR zoom value too high"] ∧ dirs w' = dirs w).
Proof.
  intros w'.
  destruct (decide ((x_max - x_min + 1) * (y_max - y_min + 1) ≤ MAX_TILE_COUNT))
    as [Hcount|Hcount].
  - unfold w'. rewrite download_tiles_for_area_loop by done.
    destruct (download_loop_spec server imsave url zoom
                (tiles_of_range x_min x_max y_min y_max) (mkdir "tiles" w))
      as (L & _ & _ & _ & Hmono & _ & Hframe & Hd & Hs).
    simpl in *. split_and!; [done| |done|unfold MAX_TILE_COUNT in *; lia].
    intros p Hp. apply Hframe. intros [x y] Hq%elem_of_tiles_of_range.
    rewrite tile_file_of_name. apply Hp; simpl; tauto.
  - unfold w', download_tiles_for_area. rewrite bool_decide_eq_true_2 by lia.
    simpl. split_and!; [done|done|unfold MAX_TILE_COUNT in *; lia|done].
Qed.

(** X5. An empty range (its last column before its first, or its last row
    before its first) costs no request and leaves every file as it is. *)
Theorem download_tiles_for_area_empty_range x_min x_max y_min y_max zoom url w :
  x_max < x_min ∨ y_max < y_min →
  let w' := download_tiles_for_area server imsave x_min x_max y_min y_max zoom url w in
  requests w' = requests w ∧ files w' = files w.
Proof.
  intros Hempty w'. unfold w'.
  destruct (decide ((x_max - x_min + 1) * (y_max - y_min + 1) ≤ MAX_TILE_COUNT))
    as [Hcount|Hcount].
  - rewrite download_tiles_for_area_loop by done.
    by rewrite tiles_of_range_empty.
  - unfold download_tiles_for_area. by rewrite bool_decide_eq_true_2 by lia.
Qed.

End FetcherMore.

(** ** More on the grid assembler *)

Section AssemblerMore.

Variable imread : string → option image.

Lemma py_range_empty lo hi : hi ≤ lo → py_range lo hi = [].
Proof.
  intros H. apply length_zero_iff_nil. unfold py_range.
  rewrite length_seqZ. lia.
Qed.

Lemma for_each_skip {A S} (l : list A) (body : A → S → result S) (s : S) :
  (∀ a s, body a s = Ok s) → for_each l body s = Ok s.
Proof.
  intros H. induction l as [|a l IH]; simpl; [done|]. by rewrite H.
Qed.

Lemma for_each_ext {A S} (l : list A) (f g : A → S → result S) (s : S) :
  (∀ a s, a ∈ l → f a s = g a s) → for_each l f s = for_each l g s.
Proof.
  revert s. induction l as [|a l IH]; intros s H; simpl; [done|].
  rewrite <-H by by left. destruct (f a s); [|done].
  apply IH. intros b t Hb. apply H. by right.
Qed.

(** A loop raises as soon as one of its steps is bound to. *)
Lemma for_each_raises {A S} (P : S → Prop) (l : list A)
    (body : A → S → result S) (bad : A) (s : S) :
  (∀ a s s', P s → body a s = Ok s' → P s') →
  (∀ s, P s → ∃ e, body bad s = Raise e) →
  bad ∈ l → P s → ∃ e, for_each l body s = Raise e.
Proof.
  intros Hkeep Hbad. revert s. induction l as [|a l IH]; intros s Hin Hs; simpl.
  - by apply elem_of_nil in Hin.
  - destruct (body a s) as [s'|e] eqn:Ha; [|by eexists].
    apply elem_of_cons in Hin as [<-|Hin].
    + destruct (Hbad s Hs) as [e He]. congruence.
    + apply IH; [done|]. by eapply Hkeep.
Qed.

Lemma slice_len_le n a b : a ≤ b → slice_len n a b ≤ b - a.
Proof. unfold slice_len. lia. Qed.

(** What an assignment that succeeds leaves alone. *)
Lemma assign_block_frame s r0 c0 n tile_img s' :
  0 ≤ n → assign_block s r0 c0 n tile_img = Ok s' →
  height s' = height s ∧ width s' = width s ∧ channels s' = channels s
  ∧ ∀ r k ch, ¬ (r0 ≤ r < r0 + n ∧ c0 ≤ k < c0 + n) →
      pixel s' r k ch = pixel s r k ch.
Proof.
  intros Hn. unfold assign_block.
  destruct (channels tile_img) as [c|], (channels s) as [d|] eqn:Hd; try done.
  case_match; [|done]. intros [= <-]. simpl. split_and!; try done.
  intros r k ch Hout. rewrite bool_decide_eq_false_2; [done|].
  pose proof (slice_len_le (height s) r0 (r0 + n)).
  pose proof (slice_len_le (width s) c0 (c0 + n)). lia.
Qed.

Lemma combine_one_frame w tile_path x_min y_min zoom x y s s' :
  combine_one imread w tile_path x_min y_min zoom x y s = Ok s' →
  height s' = height s ∧ width s' = width s ∧ channels s' = channels s
  ∧ ∀ r k ch, ¬ in_block x_min y_min (x, y) r k → pixel s' r k ch = pixel s r k ch.
Proof.
  unfold combine_one. destruct (files w !! _); [|by intros [= <-]].
  destruct (imread _); [|done].
  intros Hrun. apply assign_block_frame in Hrun as (? & ? & ? & Hpix); [|done].
  split_and!; [done..|]. intros r k ch Hout. apply Hpix. exact Hout.
Qed.

(** X6. On an empty range [combine_supertile] reads no file: it raises
    [ValueError] when a dimension of the raster would be negative, and
    returns the all-zero raster, with no row or no column, otherwise. *)
Theorem combine_supertile_empty_range x_min x_max y_min y_max zoom tile_path w :
  x_max < x_min ∨ y_max < y_min →
  (x_max < x_min - 1 ∨ y_max < y_min - 1 →
   combine_supertile imread x_min x_max y_min y_max zoom tile_path w
   = Raise ValueError)
  ∧ (x_min - 1 ≤ x_max → y_min - 1 ≤ y_max →
     combine_supertile imread x_min x_max y_min y_max zoom tile_path w
     = Ok (np_zeros ((y_max - y_min + 1) * 256) ((x_max - x_min + 1) * 256) 3)).
Proof.
  intros Hempty. unfold combine_supertile, OSM_TILE_SIZE. split.
  - intros Hneg. by rewrite bool_decide_eq_true_2 by lia.
  - intros Hx Hy. rewrite bool_decide_eq_false_2 by lia.
    destruct Hempty as [Hxe|Hye].
    + by rewrite py_range_empty by lia.
    + apply for_each_skip. intros x s. by rewrite py_range_empty by lia.
Qed.

(** X7. [combine_supertile] reads the cache files of the tiles of its range
    and nothing else: two worlds that agree on these files give the same
    result, a raster or an error. *)
Theorem combine_supertile_reads_range x_min x_max y_min y_max zoom tile_path w1 w2 :
  (∀ x y, x_min ≤ x ≤ x_max → y_min ≤ y ≤ y_max →
     files w1 !! joinpath tile_path (tile_name zoom x y)
     = files w2 !! joinpath tile_path (tile_name zoom x y)) →
  combine_supertile imread x_min x_max y_min y_max zoom tile_path w1
  = combine_supertile imread x_min x_max y_min y_max zoom tile_path w2.
Proof.
  intros Hagree. unfold combine_supertile. case_bool_decide; [done|].
  apply for_each_ext. intros x s Hx%elem_of_py_range.
  apply for_each_ext. intros y s' Hy%elem_of_py_range.
  unfold combine_one. rewrite Hagree by lia. done.
Qed.

(** X8. One cached file of the range that is not a tile image makes the
    assembly fail as a whole: when the file cannot be decoded, holds a
    greyscale image, or an image whose height or width is neither 256 nor
    1, [combine_supertile] raises and returns no raster. *)
Theorem combine_supertile_bad_tile x_min x_max y_min y_max zoom tile_path w x y content :
  x_min ≤ x ≤ x_max → y_min ≤ y ≤ y_max →
  files w !! joinpath tile_path (tile_name zoom x y) = Some content →
  (imread content = None
   ∨ ∃ tile_img, imread content = Some tile_img
       ∧ (channels tile_img = None
          ∨ (height tile_img ≠ 256 ∧ height tile_img ≠ 1)
          ∨ (width tile_img ≠ 256 ∧ width tile_img ≠ 1))) →
  ∃ e, combine_supertile imread x_min x_max y_min y_max zoom tile_path w = Raise e.
Proof.
  intros Hx Hy Hfile Hbad. unfold combine_supertile, OSM_TILE_SIZE.
  rewrite bool_decide_eq_false_2 by lia.
  rewrite (for_each_nested (combine_one imread w tile_path x_min y_min zoom)).
  fold (tiles_of_range x_min x_max y_min y_max).
  set (P := λ s : image, channels s = Some 3
                         ∧ height s = (y_max - y_min + 1) * 256
                         ∧ width s = (x_max - x_min + 1) * 256).
  apply (for_each_raises P _ _ (x, y)).
  - intros [x' y'] s s' (Hc & Hh & Hw) (? & ? & ? & _)%combine_one_frame.
    unfold P. split_and!; congruence.
  - intros s (Hc & Hh & Hw). simpl. unfold combine_one. rewrite Hfile.
    destruct Hbad as [->|(tile_img & -> & Himg)]; [by eexists|].
    unfold assign_block, OSM_TILE_SIZE. rewrite Hc, Hh, Hw.
    destruct (channels tile_img) as [c|]; [|by eexists].
    destruct Himg as [?|Himg]; [done|].
    assert (slice_len ((y_max - y_min + 1) * 256)
              ((y - y_min) * 256) ((y - y_min) * 256 + 256) = 256) as ->
      by (unfold slice_len; lia).
    assert (slice_len ((x_max - x_min + 1) * 256)
              ((x - x_min) * 256) ((x - x_min) * 256 + 256) = 256) as ->
      by (unfold slice_len; lia).
    assert (broadcastable (Z.max 0 (height tile_img)) 256
            && broadcastable (Z.max 0 (width tile_img)) 256 = false) as Hb.
    { unfold broadcastable. apply andb_false_iff.
      destruct Himg as [[??]|[??]]; [left|right];
        apply orb_false_iff; split; apply bool_decide_eq_false_2; lia. }
    rewrite Hb. simpl. by eexists.
  - by apply elem_of_tiles_of_range.
  - done.
Qed.

(** X9. Whatever the cached files hold, a raster that [combine_supertile]
    returns has the shape of the range, and the block of every tile of the
    range that has no file is zero. *)
Theorem combine_supertile_partial x_min x_max y_min y_max zoom tile_path w st :
  combine_supertile imread x_min x_max y_min y_max zoom tile_path w = Ok st →
  height st = (y_max - y_min + 1) * 256
  ∧ width st = (x_max - x_min + 1) * 256
  ∧ channels st = Some 3
  ∧ ∀ x y r k ch,
      files w !! joinpath tile_path (tile_name zoom x y) = None →
      0 ≤ r < 256 → 0 ≤ k < 256 →
      pixel st ((y - y_min) * 256 + r) ((x - x_min) * 256 + k) ch = 0%Q.
Proof.
  unfold combine_supertile, OSM_TILE_SIZE. case_bool_decide; [done|].
  rewrite (for_each_nested (combine_one imread w tile_path x_min y_min zoom)).
  intros Hrun.
  set (P := λ s : image,
         height s = (y_max - y_min + 1) * 256
         ∧ width s = (x_max - x_min + 1) * 256
         ∧ channels s = Some 3
         ∧ ∀ x y r k ch,
             files w !! joinpath tile_path (tile_name zoom x y) = None →
             0 ≤ r < 256 → 0 ≤ k < 256 →
             pixel s ((y - y_min) * 256 + r) ((x - x_min) * 256 + k) ch = 0%Q).
  apply (for_each_preserves P _ _ _ _) in Hrun; [done| |done].
  clear Hrun. intros [x' y'] s s' (Hh & Hw & Hc & Hz) Hone. simpl in Hone.
  destruct (files w !! joinpath tile_path (tile_name zoom x' y')) as [content|] eqn:Hf.
  - apply combine_one_frame in Hone as (? & ? & ? & Hpix).
    unfold P. split_and!; try congruence.
    intros x y r k ch Hnone Hr Hk. rewrite Hpix; [by apply Hz|].
    intros Hb. assert (x' = x ∧ y' = y) as [-> ->]; [|congruence].
    unfold in_block in Hb. simpl in Hb. lia.
  - unfold combine_one in Hone. rewrite Hf in Hone. by injection Hone as <-.
Qed.

End AssemblerMore.

(** ** Fetching, then assembling *)

Section FetchThenAssemble.

Variable server : nat → request → http_outcome.
Variable imsave : image → string.
Variable imread : string → option image.




End FetchThenAssemble.

(** ** More on the feature lookup client *)

Section LookupMore.

Variable server : nat → request → http_outcome.
Variable json_loads : string → option json.

(** A lookup costs one request, whatever comes of it, and touches nothing
    else. *)
Lemma lookup_geojson_by_id_world osm_id element_type w :
  (lookup_geojson_by_id server json_loads osm_id element_type w).2
  = World (files w) (dirs w) (requests w ++ [lookup_request element_type osm_id])
          (stdout w).
Proof.
  unfold lookup_geojson_by_id, requests_get.
  fold (lookup_request element_type osm_id).
  destruct (server _ _) as [e|[] content]; simpl; try done.
  destruct (json_loads content) as [cont|]; simpl; [|done].
  unfold bind, lift, ret.
  destruct (py_len cont) as [n|e]; simpl; [|done].
  case_bool_decide; [|done].
  repeat (case_bool_decide || case_match || simplify_eq/= || done).
Qed.

Lemma lookup_into_world element_type id acc w :
  (lookup_into server json_loads element_type id acc w).2
  = World (files w) (dirs w) (requests w ++ [lookup_request element_type id])
          (stdout w).
Proof.
  unfold lookup_into, bind.
  pose proof (lookup_geojson_by_id_world id element_type w) as Hw.
  destruct (lookup_geojson_by_id _ _ _ _ w) as [[d|e] w1]; simpl in *; [|done].
  destruct (d !! "geojson") as [g|]; [|done].
  unfold lift, ret.
  destruct (py_getitem "coordinates" g) as [c|e]; [|done].
  by destruct (py_extend acc.2 c).
Qed.

(** A run of lookups sends the requests of a prefix of its ids: all of
    them when it succeeds, and at least one when it raises. *)
Lemma lookup_all_world element_type ids acc w :
  ∃ k, (lookup_all server json_loads element_type ids acc w).2
       = World (files w) (dirs w)
               (requests w ++ take k (lookup_request element_type <$> ids))
               (stdout w)
    ∧ match (lookup_all server json_loads element_type ids acc w).1 with
      | Ok _ => k = length ids
      | Raise _ => (0 < k ≤ length ids)%nat
      end.
Proof.
  revert acc w. induction ids as [|id ids IH]; intros acc w; simpl.
  - exists 0%nat. simpl. rewrite app_nil_r. by destruct w.
  - unfold bind. pose proof (lookup_into_world element_type id acc w) as Hw.
    destruct (lookup_into _ _ _ _ _ w) as [[acc'|e] w1]; simpl in Hw; subst w1.
    + destruct (IH acc' (World (files w) (dirs w)
                           (requests w ++ [lookup_request element_type id])
                           (stdout w))) as (k & Hk & Hr).
      exists (S k). simpl in *. rewrite Hk, <-app_assoc. split; [done|].
      destruct (lookup_all _ _ _ _ _ _).1; lia.
    + exists 1%nat. simpl. rewrite take_0. split; [done|lia].
Qed.

(** X12. Whatever comes of it, [download_map_data_nominatim] leaves the
    files, the directories and the output alone, and the requests it sends
    are those of a prefix of its ids, the ways before the nodes: of all ids
    when it returns, and of at least one when it raises.  Without ids
    ([None] or empty lists) it sends nothing and returns. *)
Theorem download_map_data_nominatim_requests way_ids node_ids w :
  let r := download_map_data_nominatim server json_loads way_ids node_ids w in
  let all := (lookup_request "W" <$> default [] way_ids)
             ++ (lookup_request "N" <$> default [] node_ids) in
  files r.2 = files w ∧ dirs r.2 = dirs w ∧ stdout r.2 = stdout w
  ∧ ∃ k, requests r.2 = requests w ++ take k all
      ∧ match r.1 with
        | Ok _ => k = length all
        | Raise _ => (0 < k ≤ length all)%nat
        end.
Proof.
  intros r all. unfold r, download_map_data_nominatim, bind.
  destruct (lookup_all_world "W" (default [] way_ids) (∅, []) w) as (k1 & Hw1 & Hr1).
  destruct (lookup_all _ _ "W" _ _ w) as [[wr|e] w1]; simpl in Hw1, Hr1; subst w1.
  - set (w1 := World _ _ _ _).
    destruct (lookup_all_world "N" (default [] node_ids) (∅, []) w1)
      as (k2 & Hw2 & Hr2).
    assert (requests w ++ take (k1 + k2) all
            = requests w1 ++ take k2 (lookup_request "N" <$> default [] node_ids))
      as Hreq.
    { unfold all, w1; simpl. rewrite take_app, length_fmap.
      rewrite !(take_ge (lookup_request "W" <$> default [] way_ids))
        by (rewrite length_fmap; lia).
      rewrite <-app_assoc. do 3 f_equal. lia. }
    assert (length all = (k1 + length (default [] node_ids))%nat) as Hall
      by (unfold all; rewrite length_app, !length_fmap; lia).
    destruct (lookup_all _ _ "N" _ _ w1) as [[nr|e] w2]; simpl in Hw2, Hr2; subst w2;
      simpl; (split_and!; [done..|]); exists (k1 + k2)%nat;
      (split; [by rewrite Hreq|lia]).
  - simpl. split_and!; try done. exists k1. unfold all.
    rewrite take_app, length_fmap, length_app, !length_fmap.
    replace (k1 - length (default [] way_ids))%nat with 0%nat by lia.
    rewrite take_0, app_nil_r. split; [done|lia].
Qed.

End LookupMore.

(** ** More on the projection module *)

Section ProjectionMore.
Local Open Scope R_scope.

Lemma np_log2_le x y : 0 < x → x <= y → np_log2 x <= np_log2 y.
Proof.
  intros Hx Hxy. unfold np_log2. pose proof ln_2_pos.
  apply Rmult_le_compat_r; [left; by apply Rinv_0_lt_compat|].
  destruct Hxy as [Hlt| ->]; [left; apply ln_increasing; lra|right; done].
Qed.

Lemma ceil_log2_le x y : 0 < x → x <= y → (ceil_log2 x ≤ ceil_log2 y)%Z.
Proof.
  intros Hx Hxy. unfold ceil_log2.
  pose proof (np_log2_le x y Hx Hxy).
  pose proof (Int_part_le (- np_log2 y) (- np_log2 x)).
  assert (- np_log2 y <= - np_log2 x) as Hle by lra.
  specialize (H0 Hle). lia.
Qed.

(** X13. The zoom level does not grow with the box: a box that is at least
    as wide and at least as high as another one gets a zoom level that is
    at most the other's. *)
Theorem calculate_zoom_level_monotone
    (min_lon1 max_lon1 min_lat1 max_lat1 min_lon2 max_lon2 min_lat2 max_lat2 : R) :
  0 < max_lon1 - min_lon1 <= max_lon2 - min_lon2 →
  0 < max_lat1 - min_lat1 <= max_lat2 - min_lat2 →
  (calculate_zoom_level min_lon2 max_lon2 min_lat2 max_lat2
   ≤ calculate_zoom_level min_lon1 max_lon1 min_lat1 max_lat1)%Z.
Proof.
  intros [Hlon0 Hlon] [Hlat0 Hlat]. rewrite !calculate_zoom_level_eq.
  unfold zoom_level_formula.
  assert (∀ c s1 s2, 0 < c → 0 < s1 → s1 <= s2 → 0 < c / s2 ∧ c / s2 <= c / s1)
    as Hdiv.
  { intros c s1 s2 Hc Hs1 Hs. split; [apply Rdiv_lt_0_compat; lra|].
    apply Rmult_le_compat_l; [lra|]. apply Rinv_le_contravar; lra. }
  destruct (Hdiv 360 _ _ ltac:(lra) Hlat0 Hlat) as [H1 H2].
  destruct (Hdiv (1701023 / 10000) _ _ ltac:(lra) Hlon0 Hlon) as [H3 H4].
  pose proof (ceil_log2_le _ _ H1 H2). pose proof (ceil_log2_le _ _ H3 H4). lia.
Qed.

Lemma deg2tile_coord_pair lat lon zoom :
  deg2tile_coord lat lon zoom
  = (py_int (deg2xy lat lon zoom).1, py_int (deg2xy lat lon zoom).2).
Proof. unfold deg2tile_coord. by destruct (deg2xy lat lon zoom). Qed.

Lemma powerRZ_2_IZR (zoom : Z) : (0 ≤ zoom)%Z → powerRZ 2 zoom = IZR (2 ^ zoom).
Proof.
  intros Hz. rewrite <-(Z2Nat.id zoom) by done.
  by rewrite <-pow_powerRZ, pow_IZR.
Qed.

Lemma sinh_opp x : sinh (- x) = - sinh x.
Proof. unfold sinh. rewrite Ropp_involutive. lra. Qed.

Lemma lat_of_y_south (zoom : Z) :
  lat_of_y (powerRZ 2 zoom) zoom = - max_latitude.
Proof.
  unfold lat_of_y, max_latitude, np_degrees.
  assert (0 < powerRZ 2 zoom) as Hn by (apply powerRZ_lt; lra).
  replace (PI * (1 - 2 * powerRZ 2 zoom / powerRZ 2 zoom)) with (- PI)
    by (field; lra).
  rewrite sinh_opp, atan_opp. lra.
Qed.

Lemma max_latitude_lt_90 : max_latitude < 90.
Proof.
  unfold max_latitude, np_degrees. pose proof PI_RGT_0.
  destruct (atan_bound (sinh PI)) as [_ Hub].
  apply Rmult_lt_reg_r with (PI / 180); [lra|].
  replace (atan (sinh PI) * 180 / PI * (PI / 180)) with (atan (sinh PI))
    by (field; lra). lra.
Qed.

(** X14. Inside the area the projection covers, tile indices stay in range:
    for a longitude in [-180, 180], a latitude whose absolute value is at
    most [max_latitude] and a zoom that is not negative, both indices lie
    in [0, 2^zoom].  The upper end is reached: longitude 180 is mapped to
    column [2^zoom], one past the last column of the map. *)
Theorem deg2tile_coord_bounds lat lon (zoom : Z) :
  (0 ≤ zoom)%Z → -180 <= lon <= 180 → Rabs lat <= max_latitude →
  (0 ≤ (deg2tile_coord lat lon zoom).1 ≤ 2 ^ zoom
   ∧ 0 ≤ (deg2tile_coord lat lon zoom).2 ≤ 2 ^ zoom
   ∧ (deg2tile_coord lat 180 zoom).1 = 2 ^ zoom)%Z.
Proof.
  intros Hz Hlon Hlat.
  assert (Rabs lat < 90) as H90 by (pose proof max_latitude_lt_90; lra).
  assert (- max_latitude <= lat <= max_latitude) as [Hs Hn].
  { split; [|apply Rle_trans with (Rabs lat); [apply RRle_abs|done]].
    pose proof (Rabs_minus_sym lat 0) as Ha.
    pose proof (RRle_abs (- lat)) as Hb. rewrite Rabs_Ropp in Hb. lra. }
  assert (0 < powerRZ 2 zoom) as Hp by (apply powerRZ_lt; lra).
  pose proof (powerRZ_2_IZR zoom Hz) as Hpow.
  pose proof (proj2 (deg2xy_y_nonneg lat lon zoom H90) Hn) as Hy0.
  pose proof (lat_of_y_deg2xy lat lon zoom H90) as Hinv.
  assert ((deg2xy lat lon zoom).2 <= powerRZ 2 zoom) as Hy1.
  { apply Rnot_lt_le. intros Hgt.
    apply (lat_of_y_decreasing _ _ zoom) in Hgt.
    rewrite lat_of_y_south, Hinv in Hgt. lra. }
  assert (∀ l, -180 <= l <= 180 →
            0 <= (deg2xy lat l zoom).1 <= powerRZ 2 zoom) as Hx.
  { intros l Hl. unfold deg2xy; cbn [fst]. split.
    - apply Rmult_le_pos; lra.
    - rewrite <-(Rmult_1_l (powerRZ 2 zoom)) at 2.
      apply Rmult_le_compat_r; lra. }
  assert (∀ v, 0 <= v <= powerRZ 2 zoom → (0 ≤ py_int v ≤ 2 ^ zoom)%Z) as Hint.
  { intros v [Hv0 Hv1]. rewrite <-(py_int_IZR 0), <-(py_int_IZR (2 ^ zoom)).
    split; apply py_int_le; [done|]. by rewrite <-Hpow. }
  rewrite !deg2tile_coord_pair. cbn [fst snd]. split_and!.
  - apply Hint, Hx, Hlon.
  - apply Hint, Hx, Hlon.
  - by apply Hint.
  - by apply Hint.
  - assert ((deg2xy lat 180 zoom).1 = IZR (2 ^ zoom)) as ->; [|apply py_int_IZR].
    unfold deg2xy; cbn [fst]. rewrite Hpow. field.
Qed.

End ProjectionMore.

(** ** More on the main pipeline *)

Section BoundingBox.
Local Open Scope R_scope.






Lemma np_min_column_nil i : np_min_column i [] = Raise ValueError.
Proof. reflexivity. Qed.




End BoundingBox.

Section MainMore.

Variable server : nat → request → http_outcome.
Variable imsave : image → string.
Variable imread : string → option image.
Variable json_loads : string → option json.





(** Without ways the lookups are those of the nodes, and the bounding box
    has nothing to be taken from. *)
Lemma main_extent_without_ways node_ids w :
  main_extent server json_loads (DrawData [] node_ids) w
  = match lookup_all server json_loads "N" node_ids (∅, []) w with
    | (Ok _, w') => (Raise ValueError, w')
    | (Raise e, w') => (Raise e, w')
    end.
Proof.
  unfold main_extent, download_map_data_nominatim, bind; simpl.
  by destruct (lookup_all _ _ "N" _ _ w) as [[nr|e] w1].
Qed.

(** X18. [main] never draws a manifest without ways: it raises before any
    tile is requested or written, with the error of the lookup that failed
    or, when the lookups of the nodes succeed, with the [ValueError] of
    [np.min] on the empty list. *)
Theorem main_without_ways_raises node_ids w :
  ∃ err w',
    main server imsave imread json_loads (DrawData [] node_ids) w = (Raise err, w')
    ∧ files w' = files w
    ∧ stdout w' = stdout w
    ∧ requests w' `prefix_of` requests w ++ (lookup_request "N" <$> node_ids)
    ∧ match (lookup_all server json_loads "N" node_ids (∅, [])
               (mkdir "figs" w)).1 with
      | Ok _ => err = ValueError
      | Raise e => err = e
      end.
Proof.
  unfold main, bind at 1. rewrite main_extent_without_ways.
  destruct (lookup_all_world server json_loads "N" node_ids (∅, [])
              (mkdir "figs" w)) as (k & Hw & Hk).
  destruct (lookup_all server json_loads "N" node_ids (∅, []) (mkdir "figs" w))
    as [[nr|err] w1]; cbn [fst snd] in Hw, Hk; subst w1.
  - exists ValueError. eexists. split; [reflexivity|]. cbn.
    split_and!; try done. apply prefix_app, prefix_take.
  - exists err. eexists. split; [reflexivity|]. cbn.
    split_and!; try done. apply prefix_app, prefix_take.
Qed.

End MainMore.

(** ** More on names, tile corners and failing lookups *)

(** X19. A tile has a URL and a cache file of its own: the URLs of two
    tiles under one server, and their files under one directory, are equal
    only when zoom, column and row are. *)
Theorem tile_names_injective url dir zoom x y zoom' x' y' :
  (tile_url_of url zoom x y = tile_url_of url zoom' x' y'
   ↔ (zoom, x, y) = (zoom', x', y'))
  ∧ (tile_file_of dir zoom x y = tile_file_of dir zoom' x' y'
     ↔ (zoom, x, y) = (zoom', x', y')).
Proof.
  split; (split; [|by intros [= -> -> ->]]); intros H.
  - unfold tile_url_of in H; simpl in H.
    do 2 apply String.app_inj in H.
    apply (split_at_sep "/") in H as [Hz H];
      [|by apply str_contains; [apply slash_not_digit|]..].
    apply (split_at_sep "/") in H as [Hx Hy];
      [|by apply str_contains; [apply slash_not_digit|]..].
    apply str_inj in Hz, Hx. apply str_png_inj in Hy. by subst.
  - unfold tile_file_of, joinpath in H; simpl in H.
    do 4 apply String.app_inj in H.
    apply (split_at_sep "_") in H as [Hz H];
      [|by apply str_contains; [apply underscore_not_digit|]..].
    apply (split_at_sep "_") in H as [Hx Hy];
      [|by apply str_contains; [apply underscore_not_digit|]..].
    apply str_inj in Hz, Hx. apply str_png_inj in Hy. by subst.
Qed.

Section CornersMore.
Local Open Scope R_scope.

Lemma lat_of_y_antitone y1 y2 zoom :
  y1 <= y2 → lat_of_y y2 zoom <= lat_of_y y1 zoom.
Proof.
  intros [H| ->]; [left; by apply lat_of_y_decreasing|right; done].
Qed.

(** X20. The corners of the tiles of the map stay inside the area the
    projection covers: for a zoom that is not negative and tile indices in
    [0, 2^zoom], the longitude [num2deg] returns lies in [-180, 180] and
    the latitude between the two limits, [max_latitude] and its opposite,
    which are less than 90 degrees from the equator.  Tile (0, 0) has the
    north-west corner of the map and tile (2^zoom, 2^zoom), one past the
    last, the south-east one. *)
Theorem num2deg_range (x_tile y_tile zoom : Z) :
  (0 ≤ zoom)%Z → (0 ≤ x_tile ≤ 2 ^ zoom)%Z → (0 ≤ y_tile ≤ 2 ^ zoom)%Z →
  -180 <= (num2deg x_tile y_tile zoom).2 <= 180
  ∧ - max_latitude <= (num2deg x_tile y_tile zoom).1 <= max_latitude
  ∧ max_latitude < 90
  ∧ num2deg 0 0 zoom = (max_latitude, -180)
  ∧ num2deg (2 ^ zoom) (2 ^ zoom) zoom = (- max_latitude, 180).
Proof.
  intros Hz [Hx0 Hx1] [Hy0 Hy1].
  assert (0 < powerRZ 2 zoom) as Hn by (apply powerRZ_lt; lra).
  pose proof (powerRZ_2_IZR zoom Hz) as Hpow.
  apply IZR_le in Hx0, Hx1, Hy0, Hy1. rewrite <-Hpow in Hx1, Hy1.
  assert (∀ x y, (num2deg x y zoom).2 = IZR x / powerRZ 2 zoom * 360 - 180)
    as Hlon by done.
  assert (0 <= IZR x_tile / powerRZ 2 zoom <= 1) as [Hq0 Hq1].
  { split.
    - apply Rmult_le_pos; [done|]. left. by apply Rinv_0_lt_compat.
    - apply Rmult_le_reg_r with (powerRZ 2 zoom); [done|].
      replace (IZR x_tile / powerRZ 2 zoom * powerRZ 2 zoom) with (IZR x_tile)
        by (field; lra). lra. }
  split_and!.
  - rewrite Hlon. lra.
  - rewrite Hlon. lra.
  - rewrite num2deg_lat, <-(lat_of_y_south zoom). by apply lat_of_y_antitone.
  - rewrite num2deg_lat, <-(lat_of_y_0 zoom). by apply lat_of_y_antitone.
  - apply max_latitude_lt_90.
  - apply injective_projections.
    + rewrite num2deg_lat. apply lat_of_y_0.
    + rewrite Hlon. cbn [snd]. unfold Rdiv. lra.
  - apply injective_projections.
    + rewrite num2deg_lat, <-Hpow. apply lat_of_y_south.
    + rewrite Hlon, <-Hpow. cbn [snd]. field. lra.
Qed.

End CornersMore.

Section LookupStops.

Variable server : nat → request → http_outcome.
Variable json_loads : string → option json.

Lemma lookup_all_app element_type ids1 ids2 acc w :
  lookup_all server json_loads element_type (ids1 ++ ids2) acc w
  = bind (lookup_all server json_loads element_type ids1 acc)
         (lookup_all server json_loads element_type ids2) w.
Proof.
  revert acc w. induction ids1 as [|id ids1 IH]; intros acc w; simpl; [done|].
  unfold bind in *.
  destruct (lookup_into _ _ _ _ _ w) as [[acc'|e] w1]; [|done].
  apply IH.
Qed.

(** An element that resolves to nothing stops the loop: the default dict
    has a [geojson] entry, and that entry has no coordinates. *)
Lemma lookup_into_unresolved element_type id acc w :
  (∃ body, server (length (requests w)) (lookup_request element_type id)
           = Response false body)
  ∨ (∃ body cont, server (length (requests w)) (lookup_request element_type id)
                  = Response true body
       ∧ json_loads body = Some cont ∧ py_len cont = Ok 0%nat) →
  lookup_into server json_loads element_type id acc w
  = (Raise (KeyError "coordinates"),
     World (files w) (dirs w) (requests w ++ [lookup_request element_type id])
           (stdout w)).
Proof.
  intros H. unfold lookup_into, lookup_geojson_by_id, requests_get, bind at 1.
  fold (lookup_request element_type id).
  destruct H as [[body ->]|(body & cont & -> & Hc & Hl)]; [done|].
  rewrite Hc. unfold bind at 1, lift at 1. by rewrite Hl.
Qed.

(** X21. The first way that resolves to no geometry ends the collection:
    when the ways before it are all found and the lookup of this one gets
    a response that is not ok, or an empty list, the call raises
    [KeyError] on the coordinates of the empty geometry, after one request
    for each way up to this one and none for the remaining ways or for the
    nodes. *)
Theorem download_map_data_nominatim_stops_at_unresolved
    found_ids id rest node_ids w wcs :
  all_found server json_loads (length (requests w)) "W" found_ids = Some wcs →
  (∃ body, server (length (requests w) + length found_ids) (lookup_request "W" id)
           = Response false body)
  ∨ (∃ body cont,
       server (length (requests w) + length found_ids) (lookup_request "W" id)
       = Response true body
       ∧ json_loads body = Some cont ∧ py_len cont = Ok 0%nat) →
  download_map_data_nominatim server json_loads
    (Some (found_ids ++ id :: rest)) node_ids w
  = (Raise (KeyError "coordinates"),
     World (files w) (dirs w)
           (requests w ++ (lookup_request "W" <$> found_ids ++ [id])) (stdout w)).
Proof.
  intros Hfound Hid.
  destruct (lookup_all_found server json_loads "W" found_ids (∅, []) w wcs Hfound)
    as [found Hrun].
  unfold download_map_data_nominatim.
  change (default [] (Some (found_ids ++ id :: rest)))
    with (found_ids ++ id :: rest).
  unfold bind at 1. rewrite lookup_all_app. unfold bind at 1. rewrite Hrun.
  cbn [lookup_all]. unfold bind at 1.
  rewrite lookup_into_unresolved.
  - cbn. by rewrite fmap_app, app_assoc.
  - cbn [requests]. by rewrite length_app, length_fmap.
Qed.

End LookupStops.

(** ** The further theorems at inputs that meet their hypotheses *)


(** Two tiles in a row, none cached. *)
Lemma download_tiles_for_area_requests_missing_witness :
  (1 - 0 + 1) * (0 - 0 + 1) ≤ 500
  ∧ new_requests empty_world
      (download_tiles_for_area refusing_server imsave_blank 0 1 0 0 1
         default_url empty_world)
    = (λ q, Get (tile_url_of default_url 1 q.1 q.2) [])
        <$> filter (λ q, files empty_world !! joinpath "tiles" (tile_name 1 q.1 q.2)
                         = None)
                   (tiles_of_range 0 1 0 0).
Proof.
  assert ((1 - 0 + 1) * (0 - 0 + 1) ≤ 500) as H by lia.
  split; [exact H|].
  exact (download_tiles_for_area_requests_missing refusing_server imsave_blank
           0 1 0 0 1 default_url empty_world H).
Defined.

(** A range whose last column lies before its first. *)
Lemma download_tiles_for_area_empty_range_witness :
  (0 < 1 ∨ 0 < 0)
  ∧ let w' := download_tiles_for_area answering_server imsave_blank 1 0 0 0 3
                default_url empty_world in
    requests w' = requests empty_world ∧ files w' = files empty_world.
Proof.
  assert (0 < 1 ∨ 0 < 0) as H by (left; lia).
  split; [exact H|].
  exact (download_tiles_for_area_empty_range answering_server imsave_blank
           1 0 0 0 3 default_url empty_world H).
Defined.

(** One row, no column. *)
Lemma combine_supertile_empty_range_witness :
  (0 < 1 ∨ 0 < 0)
  ∧ combine_supertile imread_white 1 0 0 0 3 "tiles" empty_world
    = Ok (np_zeros ((0 - 0 + 1) * 256) ((0 - 1 + 1) * 256) 3).
Proof.
  assert (0 < 1 ∨ 0 < 0) as H by (left; lia).
  split; [exact H|].
  apply (proj2 (combine_supertile_empty_range imread_white 1 0 0 0 3 "tiles"
                  empty_world H)); lia.
Defined.

(** A file that is no tile does not count. *)
Lemma combine_supertile_reads_range_witness :
  combine_supertile imread_white 0 0 0 0 3 "tiles" empty_world
  = combine_supertile imread_white 0 0 0 0 3 "tiles"
      (World {["notes.txt" := "text"]} ∅ [] []).
Proof.
  apply combine_supertile_reads_range.
  intros x y Hx Hy.
  assert (x = 0) as -> by lia. assert (y = 0) as -> by lia. reflexivity.
Defined.

(** A cached file that does not decode. *)
Lemma combine_supertile_bad_tile_witness :
  ∃ e, combine_supertile (λ _, None) 0 0 0 0 3 "tiles"
         (World {["tiles/tile_3_0_0.png" := "png"]} ∅ [] []) = Raise e.
Proof.
  apply (combine_supertile_bad_tile (λ _, None) 0 0 0 0 3 "tiles"
           (World {["tiles/tile_3_0_0.png" := "png"]} ∅ [] []) 0 0 "png").
  - lia.
  - lia.
  - reflexivity.
  - left. reflexivity.
Defined.

(** Two tiles in a row, the first one cached. *)
Lemma combine_supertile_partial_witness :
  let w := World {["tiles/tile_3_0_0.png" := "png"]} ∅ [] [] in
  ∃ st, combine_supertile imread_white 0 1 0 0 3 "tiles" w = Ok st
        ∧ height st = (0 - 0 + 1) * 256
        ∧ width st = (1 - 0 + 1) * 256
        ∧ channels st = Some 3.
Proof.
  intros w.
  destruct (combine_supertile_returns imread_white 0 1 0 0 3 "tiles" w)
    as [st Hst].
  - lia.
  - lia.
  - intros. apply imread_white_well_formed.
  - exists st. split; [exact Hst|].
    destruct (combine_supertile_partial imread_white 0 1 0 0 3 "tiles" w st Hst)
      as (Hh & Hw & Hc & _).
    split; [exact Hh|]. split; [exact Hw|exact Hc].
Defined.



(** A box and a wider and higher one around it. *)
Lemma calculate_zoom_level_monotone_witness :
  (0 < 135 / 10 - 133 / 10 <= 14 - 13 ∧ 0 < 526 / 10 - 525 / 10 <= 53 - 52)%R
  ∧ calculate_zoom_level 13 14 52 53
    ≤ calculate_zoom_level (133 / 10) (135 / 10) (525 / 10) (526 / 10).
Proof.
  assert (0 < 135 / 10 - 133 / 10 <= 14 - 13)%R as Hlon by lra.
  assert (0 < 526 / 10 - 525 / 10 <= 53 - 52)%R as Hlat by lra.
  split; [done|].
  exact (calculate_zoom_level_monotone _ _ _ _ _ _ _ _ Hlon Hlat).
Defined.

(** The origin at zoom 1. *)
Lemma deg2tile_coord_bounds_witness :
  (-180 <= 0 <= 180 ∧ Rabs 0 <= max_latitude)%R
  ∧ 0 ≤ (deg2tile_coord 0 0 1).1 ≤ 2 ^ 1
  ∧ 0 ≤ (deg2tile_coord 0 0 1).2 ≤ 2 ^ 1
  ∧ (deg2tile_coord 0 180 1).1 = 2 ^ 1.
Proof.
  assert (0 ≤ 1) as Hz by lia.
  assert (-180 <= 0 <= 180)%R as Hlon by lra.
  assert (Rabs 0 <= max_latitude)%R as Hlat
    by (rewrite Rabs_R0; left; apply max_latitude_nonneg).
  split; [done|].
  exact (deg2tile_coord_bounds 0 0 1 Hz Hlon Hlat).
Defined.




(** Tile (1, 1) at zoom 1, the middle of the map. *)
Lemma num2deg_range_witness :
  (0 ≤ 1 ∧ 0 ≤ 1 ≤ 2 ^ 1)
  ∧ (-180 <= (num2deg 1 1 1).2 <= 180)%R
  ∧ (- max_latitude <= (num2deg 1 1 1).1 <= max_latitude)%R.
Proof.
  assert (0 ≤ 1) as Hz by lia.
  assert (0 ≤ 1 ≤ 2 ^ 1) as Hx by lia.
  split; [done|].
  destruct (num2deg_range 1 1 1 Hz Hx Hx) as (Hlon & Hlat & _).
  split; [exact Hlon|exact Hlat].
Defined.

(** Way 1 is refused: ways 2 and node 3 are not looked up. *)
Lemma download_map_data_nominatim_stops_at_unresolved_witness :
  download_map_data_nominatim refusing_server loads_nothing
    (Some ([] ++ 1 :: [2])) (Some [3]) empty_world
  = (Raise (KeyError "coordinates"),
     World (files empty_world) (dirs empty_world)
           (requests empty_world ++ (lookup_request "W" <$> [] ++ [1]))
           (stdout empty_world)).
Proof.
  apply (download_map_data_nominatim_stops_at_unresolved refusing_server
           loads_nothing [] 1 [2] (Some [3]) empty_world []).
  - reflexivity.
  - left. exists "". reflexivity.
Defined.
